(** * AudioVisualizer: the signal-to-pixel pipeline of visualizer.js

    The development follows the Stage 3 class [AudioVisualizer] (Web Audio
    analyser, [getVisualData], [getColor], the four draw strategies, the
    particle pool and [animate]).

    Conventions of the embedding.
    - A [Uint8Array] is a [list Z] whose elements lie in [0, 255].
    - JavaScript numbers are IEEE-754 doubles; they are the kernel's
      primitive [float].  The reducer [getVisualData] only ever handles
      dyadic rationals far below 53 significant bits, so it is written over
      [Q], and a double-precision transliteration is shown to agree with it
      at every frame length an analyser can have.
    - [Math.random], [Math.cos] and [Math.sin] are supplied by the host; they
      are inputs of the model.
    - The 2D context is recorded as the sequence of calls made on it. *)

From Stdlib Require Import ZArith QArith Qround Qminmax List String Bool Lia.
From Stdlib Require Import Floats Uint63.
Import ListNotations.

Set Warnings "-inexact-float,-notation-for-abbreviation".

Local Open Scope Z_scope.

(** ** Typed arrays *)

(** [a[k]] on a typed array: [None] is JavaScript's [undefined], returned for
    every key that is not an index of the array. *)
Definition typed_get (a : list Z) (k : Z) : option Z :=
  if k <? 0 then None else nth_error a (Z.to_nat k).

Definition is_uint8 (b : Z) : Prop := 0 <= b <= 255.

(** A number that may be [NaN], in exact arithmetic. *)
Definition qnum : Type := option Q.

(** [Math.min(255, x)]: [NaN] is contagious. *)
Definition min255 (x : qnum) : qnum :=
  match x with
  | None => None
  | Some q => Some (if Qle_bool (255 # 1) q then 255 # 1 else q)
  end.

(** Storing a number into a [Uint8Array] (ToUint8): [NaN] becomes 0, anything
    else is truncated towards zero and reduced modulo 256. *)
Definition Qtruncate (q : Q) : Z :=
  if Qle_bool 0 q then Qfloor q else Qceiling q.

Definition to_uint8 (x : qnum) : Z :=
  match x with
  | None => 0
  | Some q => Qtruncate q mod 256
  end.

(** ** The visualizer object *)

Inductive color : Type :=
| hsl (h s l : float)
| rgb (r g b : float)
| rgba (r g b a : float)
| undefined_color.

Record particle : Type := mkParticle {
  p_x : float;
  p_y : float;
  p_vx : float;
  p_vy : float;
  p_size : float;
  p_color : color;
  p_life : float
}.

(** The fields of [this] that the rendering path reads or writes, for an
    instance whose [setupAudioAPI] succeeded. *)
Record visualizer : Type := mkVisualizer {
  canvas_width : float;
  canvas_height : float;
  visualMode : string;          (* this.visualMode.value *)
  colorScheme : string;         (* this.colorScheme.value *)
  bufferLength : Z;
  dataArray : list Z;
  currentVisualData : option (list Z);
  particles : list particle
}.

Definition set_currentVisualData (st : visualizer) (d : list Z) : visualizer :=
  mkVisualizer (canvas_width st) (canvas_height st) (visualMode st)
    (colorScheme st) (bufferLength st) (dataArray st) (Some d) (particles st).

Definition set_particles (st : visualizer) (ps : list particle) : visualizer :=
  mkVisualizer (canvas_width st) (canvas_height st) (visualMode st)
    (colorScheme st) (bufferLength st) (dataArray st) (currentVisualData st) ps.

Definition set_dataArray (st : visualizer) (d : list Z) : visualizer :=
  mkVisualizer (canvas_width st) (canvas_height st) (visualMode st)
    (colorScheme st) (bufferLength st) d (currentVisualData st) (particles st).

Definition set_visualMode (st : visualizer) (m : string) : visualizer :=
  mkVisualizer (canvas_width st) (canvas_height st) m
    (colorScheme st) (bufferLength st) (dataArray st) (currentVisualData st)
    (particles st).

(** What [setupAudioAPI] establishes: [dataArray] is a [Uint8Array] of
    [bufferLength] elements. *)
Definition frame_ok (st : visualizer) : Prop :=
  bufferLength st = Z.of_nat (List.length (dataArray st)) /\
  Forall is_uint8 (dataArray st).

(** ** Visual Sample Reducer *)

Definition sampleSize : Z := 128.
Definition amplification : Q := 3 # 2.

(** [Math.floor((i / sampleSize) * (this.bufferLength / 2))] *)
Definition binIndex (st : visualizer) (i : Z) : Z :=
  Qfloor ((inject_Z i / inject_Z sampleSize) * (inject_Z (bufferLength st) / (2 # 1))).

(** [Math.min(255, this.dataArray[binIndex] * amplification)]; an [undefined]
    operand makes the product [NaN]. *)
Definition amplified (st : visualizer) (i : Z) : qnum :=
  min255 (option_map (fun v => inject_Z v * amplification)%Q
            (typed_get (dataArray st) (binIndex st i))).

Definition visualData_of (st : visualizer) : list Z :=
  map (fun i => to_uint8 (amplified st (Z.of_nat i)))
      (seq 0 (Z.to_nat sampleSize)).

(** [getVisualData()] returns the fresh array and leaves it in
    [this.currentVisualData].  The object here has its [dataArray]; the
    call on an object without one is [getVisualData_checked], below. *)
Definition getVisualData (st : visualizer) : visualizer * list Z :=
  let visualData := visualData_of st in
  (set_currentVisualData st visualData, visualData).

(** ** Double-precision helpers *)

Local Open Scope float_scope.

Definition of_Z (z : Z) : float :=
  if (z <? 0)%Z then - PrimFloat.of_uint63 (Uint63.of_Z (- z))
  else PrimFloat.of_uint63 (Uint63.of_Z z).

(** The integer a finite double denotes, when it denotes one. *)
Definition float_to_Z (f : float) : option Z :=
  match Prim2SF f with
  | S754_zero _ => Some 0%Z
  | S754_finite s m e =>
      let a := if (0 <=? e)%Z then Some (Z.pos m * 2 ^ e)%Z
               else if (Z.pos m mod 2 ^ (- e) =? 0)%Z
                    then Some (Z.pos m / 2 ^ (- e))%Z else None in
      option_map (fun v => if s then (- v)%Z else v) a
  | _ => None
  end.

(** [Math.floor]: doubles with a non-negative exponent, zeros, infinities and
    [NaN] are returned as they are. *)
Definition Math_floor (f : float) : float :=
  match Prim2SF f with
  | S754_finite s m e =>
      if (e <? 0)%Z
      then of_Z ((if s then Z.neg m else Z.pos m) / 2 ^ (- e))
      else f
  | _ => f
  end.

(** The array index a number used as a property key names ([-0] prints as
    ["0"]); [None] when the key is not an index. *)
Definition key_of (f : float) : option Z :=
  match float_to_Z f with
  | Some z => if (z <? 0)%Z then None else Some z
  | None => None
  end.

Definition float_get (a : list Z) (f : float) : option Z :=
  match key_of f with
  | Some k => typed_get a k
  | None => None
  end.

(** An array element used as a number: [undefined] converts to [NaN]. *)
Definition to_number (v : option Z) : float :=
  match v with
  | Some b => of_Z b
  | None => nan
  end.

Definition array_length (a : list Z) : float := of_Z (Z.of_nat (List.length a)).

Definition Math_PI : float := 0x1.921fb54442d18p+1.

(** ** Color Mapper *)

(** [dataSource[index] || 0] *)
Definition sample_or_zero (dataSource : list Z) (index : float) : Z :=
  match float_get dataSource index with
  | Some v => if (v =? 0)%Z then 0%Z else v
  | None => 0%Z
  end.

(** [neonColors[index % 3]]: the remainder has the sign of [index], and only
    0, 1 and 2 are keys of the palette. *)
Definition neon_pick (index : float) (palette : list color) : color :=
  match float_to_Z index with
  | Some z => if (Z.rem z 3 <? 0)%Z then undefined_color
              else nth (Z.to_nat (Z.rem z 3)) palette undefined_color
  | None => undefined_color
  end.

(** [this.currentVisualData || this.dataArray]: an array object is truthy
    whatever it holds. *)
Definition dataSource (st : visualizer) : list Z :=
  match currentVisualData st with
  | Some d => d
  | None => dataArray st
  end.

Definition getColor (st : visualizer) (index total : float) : color :=
  let scheme := colorScheme st in
  let hue := (index / total) * 360 in
  let value := sample_or_zero (dataSource st) index in
  let intensity := of_Z value / 255 in
  if String.eqb scheme "rainbow" then
    hsl hue 100 (60 + intensity * 40)
  else if String.eqb scheme "fire" then
    let fireHue := 0 + (60 * intensity) in
    hsl fireHue 100 (50 + intensity * 40)
  else if String.eqb scheme "ocean" then
    let oceanHue := 180 + (60 * intensity) in
    hsl oceanHue 90 (50 + intensity * 40)
  else if String.eqb scheme "neon" then
    let neonColors :=
      [ rgb (255 * intensity) 0 (255 * intensity);
        rgb 0 (255 * intensity) (255 * intensity);
        rgb (255 * intensity) (255 * intensity) 0 ] in
    neon_pick index neonColors
  else if String.eqb scheme "purple" then
    hsl (270 + intensity * 60) 90 (50 + intensity * 40)
  else
    hsl hue 100 50.

(** ** The 2D context, as the calls made on it *)

Inductive style : Type :=
| solid (c : color)
| linearGradient (x0 y0 x1 y1 : float) (stops : list (float * color))
| radialGradient (x0 y0 r0 x1 y1 r1 : float) (stops : list (float * color)).

Inductive ctx_call : Type :=
| beginPath
| moveTo (x y : float)
| lineTo (x y : float)
| arc (x y r a0 a1 : float)
| stroke
| fill
| fillRect (x y w h : float)
| set_fillStyle (s : style)
| set_strokeStyle (s : style)
| set_lineWidth (w : float)
| set_shadowBlur (b : float)
| set_shadowColor (c : color)
| set_globalAlpha (a : float).

(** ** Render strategies *)

(** Each strategy returns the updated object and the calls it made on the
    context, in order. *)
Definition drawn : Type := (visualizer * list ctx_call)%type.

(** One bar of [drawBars]; [x] is the running left edge. *)
Definition bar_calls (st : visualizer) (visualData : list Z) (barWidth : float)
    (x : float) (i : nat) : list ctx_call :=
  let bufferLength := array_length visualData in
  let fi := of_Z (Z.of_nat i) in
  let barHeight := (to_number (nth_error visualData i) / 255) * canvas_height st in
  let gradient :=
    linearGradient 0 (canvas_height st) 0 (canvas_height st - barHeight)
      [ (0, getColor st fi bufferLength); (1, rgba 255 255 255 0.1) ] in
  [ set_fillStyle gradient;
    fillRect x (canvas_height st - barHeight) (barWidth - 2) barHeight;
    set_shadowBlur 15;
    set_shadowColor (getColor st fi bufferLength) ].

Definition drawBars (st : visualizer) : drawn :=
  let '(st1, visualData) := getVisualData st in
  let bufferLength := array_length visualData in
  let barWidth := (canvas_width st1 / bufferLength) - 2 in
  let step (acc : float * list ctx_call) (i : nat) :=
    (fst acc + barWidth, snd acc ++ bar_calls st1 visualData barWidth (fst acc) i) in
  (st1, snd (fold_left step (seq 0 (List.length visualData)) (0, []))).

(** The points of the waveform trace: [v = dataArray[i] / 128.0],
    [y = (v * height) / 2], [x = i * sliceWidth]. *)
Definition waveform_point (st : visualizer) (sliceWidth : float) (i : nat)
  : float * float :=
  let v := to_number (nth_error (dataArray st) i) / 128 in
  let y := (v * canvas_height st) / 2 in
  let x := of_Z (Z.of_nat i) * sliceWidth in
  (x, y).

Definition mirror_point (st : visualizer) (sliceWidth : float) (i : nat)
  : float * float :=
  let v := to_number (nth_error (dataArray st) i) / 128 in
  let y := canvas_height st - (v * canvas_height st) / 2 in
  let x := of_Z (Z.of_nat i) * sliceWidth in
  (x, y).

(** [moveTo] for the first point, [lineTo] for the others. *)
Definition trace_call (i : nat) (pt : float * float) : ctx_call :=
  match i with
  | O => moveTo (fst pt) (snd pt)
  | S _ => lineTo (fst pt) (snd pt)
  end.

Definition drawWaveform (st : visualizer) : drawn :=
  let bufferLength := array_length (dataArray st) in
  let n := List.length (dataArray st) in
  let sliceWidth := canvas_width st / bufferLength in
  let gradient :=
    linearGradient 0 0 (canvas_width st) 0
      [ (0, getColor st 0 bufferLength);
        (0.5, getColor st (bufferLength / 2) bufferLength);
        (1, getColor st (bufferLength - 1) bufferLength) ] in
  (st,
   [ beginPath; set_lineWidth 3 ]
   ++ map (fun i => trace_call i (waveform_point st sliceWidth i)) (seq 0 n)
   ++ [ set_strokeStyle gradient;
        set_shadowBlur 20;
        set_shadowColor (getColor st (bufferLength / 2) bufferLength);
        stroke;
        beginPath ]
   ++ map (fun i => trace_call i (mirror_point st sliceWidth i)) (seq 0 n)
   ++ [ set_strokeStyle gradient;
        set_globalAlpha 0.5;
        stroke;
        set_globalAlpha 1 ]).

(** *** Particle pool *)

(** [p.x += p.vx; p.y += p.vy; p.vy += 0.1; p.life -= 0.01] *)
Definition move (p : particle) : particle :=
  mkParticle (p_x p + p_vx p) (p_y p + p_vy p) (p_vx p) (p_vy p + 0.1)
             (p_size p) (p_color p) (p_life p - 0.01).

(** [p.life <= 0 || p.y > this.canvas.height] *)
Definition expired (height : float) (p : particle) : bool :=
  (p_life p <=? 0) || (height <? p_y p).

Definition paint_particle (p : particle) : list ctx_call :=
  [ beginPath;
    arc (p_x p) (p_y p) (p_size p) 0 (Math_PI * 2);
    set_fillStyle (solid (p_color p));
    set_globalAlpha (p_life p);
    set_shadowBlur 15;
    set_shadowColor (p_color p);
    fill;
    set_globalAlpha 1 ].

(** [this.particles.splice(i, 1)] *)
Definition splice1 (i : nat) (ps : list particle) : list particle :=
  firstn i ps ++ skipn (S i) ps.

(** The object at index [i] is updated in place. *)
Definition store (i : nat) (p : particle) (ps : list particle) : list particle :=
  firstn i ps ++ p :: skipn (S i) ps.

(** The update loop, [for (let i = length - 1; i >= 0; i--)]: [update_loop h k ps]
    runs the iterations [i = k - 1, ..., 0] on the pool [ps]. *)
Fixpoint update_loop (height : float) (k : nat) (ps : list particle)
  : list particle * list ctx_call :=
  match k with
  | O => (ps, [])
  | S i =>
      match nth_error ps i with
      | None => (ps, [])
      | Some p =>
          let p' := move p in
          if expired height p'
          then update_loop height i (splice1 i ps)
          else
            let r := update_loop height i (store i p' ps) in
            (fst r, paint_particle p' ++ snd r)
      end
  end.

(** One iteration of the spawn loop.  [rnd] lists the results of the calls to
    [Math.random()] made during this tick, in call order; [k] is the number of
    calls made so far. *)
Definition spawn_one (st : visualizer) (visualData : list Z) (rnd : nat -> float)
    (acc : nat * list particle) : nat * list particle :=
  let bufferLength := array_length visualData in
  let k := fst acc in
  let value := float_get visualData (Math_floor (rnd k * bufferLength)) in
  match value with
  | Some v =>
      if (80 <? v)%Z then
        ((k + 6)%nat,
         snd acc ++
         [ mkParticle
             (rnd (k + 1)%nat * canvas_width st)
             (canvas_height st)
             ((rnd (k + 2)%nat - 0.5) * 4)
             (- (rnd (k + 3)%nat * 5 + 3))
             (rnd (k + 4)%nat * 4 + 2)
             (getColor st (Math_floor (rnd (k + 5)%nat * bufferLength)) bufferLength)
             1 ])
      else ((k + 1)%nat, snd acc)
  | None => ((k + 1)%nat, snd acc)
  end.

(** [if (this.particles.length < 100) { for (let i = 0; i < 3; i++) ... }] *)
Definition spawn (st : visualizer) (visualData : list Z) (rnd : nat -> float)
  : list particle :=
  if (List.length (particles st) <? 100)%nat
  then snd (fold_left (fun acc (_ : nat) => spawn_one st visualData rnd acc)
                      (seq 0 3) (O, particles st))
  else particles st.

Definition background_bar (st : visualizer) (visualData : list Z) (i : nat)
  : list ctx_call :=
  let bufferLength := array_length visualData in
  let barWidth := canvas_width st / bufferLength in
  let barHeight :=
    (to_number (nth_error visualData i) / 255) * canvas_height st * 0.4 in
  [ set_fillStyle (solid (getColor st (of_Z (Z.of_nat i)) bufferLength));
    set_globalAlpha 0.2;
    fillRect (of_Z (Z.of_nat i) * barWidth) (canvas_height st - barHeight)
             (barWidth - 2) barHeight;
    set_globalAlpha 1 ].

Definition drawParticles (rnd : nat -> float) (st : visualizer) : drawn :=
  let '(st1, visualData) := getVisualData st in
  let spawned := spawn st1 visualData rnd in
  let r := update_loop (canvas_height st1) (List.length spawned) spawned in
  (set_particles st1 (fst r),
   snd r ++ flat_map (background_bar st1 visualData)
                     (seq 0 (List.length visualData))).

(** [Math.min] of two numbers. *)
Definition Math_min (a b : float) : float :=
  if is_nan a || is_nan b then nan
  else if a <? b then a
  else if b <? a then b
  else if get_sign a then a else b.

Definition set_canvas_width (st : visualizer) (w : float) : visualizer :=
  mkVisualizer w (canvas_height st) (visualMode st) (colorScheme st)
    (bufferLength st) (dataArray st) (currentVisualData st) (particles st).

Definition set_colorScheme (st : visualizer) (s : string) : visualizer :=
  mkVisualizer (canvas_width st) (canvas_height st) (visualMode st) s
    (bufferLength st) (dataArray st) (currentVisualData st) (particles st).

(** What the analyser holds when a frame is drawn, and the values
    [Math.random()] returns during that frame. *)
Record tick_input : Type := mkTick {
  timeDomainData : list Z;
  frequencyData : list Z;
  random : nat -> float
}.

(** [analyser.getByte...Data(this.dataArray)] overwrites the array in place;
    its length does not change. *)
Definition fill_from (old src : list Z) : list Z :=
  firstn (List.length old) src ++ skipn (List.length src) old.

Inductive event : Type :=
| tick (inp : tick_input)          (* the animation-frame callback *)
| mode_change (m : string)         (* 'change' on the visualMode select *)
| scheme_change (s : string)       (* another color scheme is selected *)
| resize (innerWidth : Z).         (* the window's resize listener *)

Section Host.

(** [Math.cos] and [Math.sin] of the host. *)
Variables Math_cos Math_sin : float -> float.

Definition spoke (st : visualizer) (visualData : list Z)
    (centerX centerY radius : float) (i : nat) : list ctx_call :=
  let bufferLength := array_length visualData in
  let fi := of_Z (Z.of_nat i) in
  let angle := (fi / bufferLength) * Math_PI * 2 - Math_PI / 2 in
  let barHeight := (to_number (nth_error visualData i) / 255) * 150 in
  let x1 := centerX + Math_cos angle * radius in
  let y1 := centerY + Math_sin angle * radius in
  let x2 := centerX + Math_cos angle * (radius + barHeight) in
  let y2 := centerY + Math_sin angle * (radius + barHeight) in
  [ beginPath;
    moveTo x1 y1;
    lineTo x2 y2;
    set_strokeStyle (solid (getColor st fi bufferLength));
    set_lineWidth 3;
    set_shadowBlur 10;
    set_shadowColor (getColor st fi bufferLength);
    stroke ].

Definition drawCircular (st : visualizer) : drawn :=
  let '(st1, visualData) := getVisualData st in
  let centerX := canvas_width st1 / 2 in
  let centerY := canvas_height st1 / 2 in
  let radius := Math_min centerX centerY - 50 in
  let centerGradient :=
    radialGradient centerX centerY 0 centerX centerY 20
      [ (0, rgba 255 255 255 0.8); (1, rgba 100 100 255 0.4) ] in
  (st1,
   [ beginPath;
     arc centerX centerY radius 0 (Math_PI * 2);
     set_strokeStyle (solid (rgba 255 255 255 0.1));
     set_lineWidth 2;
     stroke ]
   ++ flat_map (spoke st1 visualData centerX centerY radius)
               (seq 0 (List.length visualData))
   ++ [ beginPath;
        arc centerX centerY 20 0 (Math_PI * 2);
        set_fillStyle centerGradient;
        fill ]).

(** ** Frame scheduler *)

(** One run of [animate()].  The re-registration with
    [requestAnimationFrame] is what makes the host deliver the next [tick]. *)
Definition animate (st : visualizer) (inp : tick_input) : drawn :=
  let mode := visualMode st in
  let st1 :=
    if String.eqb mode "waveform"
    then set_dataArray st (fill_from (dataArray st) (timeDomainData inp))
    else set_dataArray st (fill_from (dataArray st) (frequencyData inp)) in
  let clear :=
    [ set_fillStyle (solid (rgba 26 26 46 0.3));
      fillRect 0 0 (canvas_width st1) (canvas_height st1);
      set_shadowBlur 0 ] in
  let r :=
    if String.eqb mode "bars" then drawBars st1
    else if String.eqb mode "circular" then drawCircular st1
    else if String.eqb mode "waveform" then drawWaveform st1
    else if String.eqb mode "particles" then drawParticles (random inp) st1
    else (st1, []) in
  (fst r, clear ++ snd r).

(** The listeners that touch the rendering state.  [resize] is given the
    window's [innerWidth], an integer:
    [canvas.width = Math.min(window.innerWidth - 100, 1000)], and a canvas
    that is assigned a negative width takes its default, 300. *)
Definition handle (st : visualizer) (e : event) : drawn :=
  match e with
  | tick inp => animate st inp
  | mode_change m => (set_particles (set_visualMode st m) [], [])
  | scheme_change s => (set_colorScheme st s, [])
  | resize innerWidth =>
      let maxWidth := Z.min (innerWidth - 100) 1000 in
      (set_canvas_width st (of_Z (if (maxWidth <? 0)%Z then 300 else maxWidth)), [])
  end.

(** The object after a sequence of events. *)
Definition run (st : visualizer) (evs : list event) : visualizer :=
  fold_left (fun s e => fst (handle s e)) evs st.

End Host.

(** ** Auxiliary definitions for the statements *)

(** The reducer written with the source's double-precision operations. *)
Definition to_uint8_double (f : float) : Z :=
  match Prim2SF f with
  | S754_finite s m e =>
      let a := if (0 <=? e)%Z then (Z.pos m * 2 ^ e)%Z
               else (Z.pos m / 2 ^ (- e))%Z in
      ((if s then - a else a) mod 256)%Z
  | _ => 0%Z
  end.

Definition getVisualData_double (st : visualizer) : list Z :=
  map (fun i =>
         let binIndex :=
           Math_floor ((of_Z (Z.of_nat i) / of_Z sampleSize)
                       * (of_Z (bufferLength st) / 2)) in
         let amplified :=
           Math_min 255 (to_number (float_get (dataArray st) binIndex) * 1.5) in
         to_uint8_double amplified)
      (seq 0 (Z.to_nat sampleSize)).

(** The frame lengths an [AnalyserNode] can have: [frequencyBinCount] is
    half of [fftSize], a power of two from 32 to 32768. *)
Definition analyser_lengths : list Z :=
  [16; 32; 64; 128; 256; 512; 1024; 2048; 4096; 8192; 16384]%Z.

(** The Color Mapper with the sample value passed explicitly:
    [colorFor index total sampleValue scheme]. *)
Definition colorFor (index total : float) (sampleValue : Z) (scheme : string)
  : color :=
  let hue := (index / total) * 360 in
  let intensity := of_Z sampleValue / 255 in
  if String.eqb scheme "rainbow" then hsl hue 100 (60 + intensity * 40)
  else if String.eqb scheme "fire" then
    hsl (0 + (60 * intensity)) 100 (50 + intensity * 40)
  else if String.eqb scheme "ocean" then
    hsl (180 + (60 * intensity)) 90 (50 + intensity * 40)
  else if String.eqb scheme "neon" then
    neon_pick index
      [ rgb (255 * intensity) 0 (255 * intensity);
        rgb 0 (255 * intensity) (255 * intensity);
        rgb (255 * intensity) (255 * intensity) 0 ]
  else if String.eqb scheme "purple" then
    hsl (270 + intensity * 60) 90 (50 + intensity * 40)
  else hsl hue 100 50.

(** The points of the first path of a call sequence: every [moveTo] and
    [lineTo] up to the first [stroke]. *)
Fixpoint first_path (cs : list ctx_call) : list (float * float) :=
  match cs with
  | [] => []
  | stroke :: _ => []
  | moveTo x y :: r => (x, y) :: first_path r
  | lineTo x y :: r => (x, y) :: first_path r
  | _ :: r => first_path r
  end.

(** The pool after the update loop, as a collection: every particle is moved
    and the expired ones are dropped. *)
Definition survivors (height : float) (ps : list particle) : list particle :=
  filter (fun p => negb (expired height p)) (map move ps).

(** [n] applications of a function. *)
Definition iterate {A : Type} (f : A -> A) (n : nat) (a : A) : A :=
  Nat.iter n f a.

(** The reducer's contract read literally: element [i] is
    [min(255, frame[floor(i/128 * M/2)] * 1.5)] itself. *)
Definition reducer_formula_unrounded : Prop :=
  forall st : visualizer,
    frame_ok st -> (2 <= bufferLength st)%Z ->
    forall i : Z, (0 <= i < 128)%Z ->
    exists v e : Z,
      typed_get (dataArray st)
        (Qfloor ((inject_Z i / 128) * (inject_Z (bufferLength st) / 2))%Q) = Some v /\
      typed_get (snd (getVisualData st)) i = Some e /\
      (inject_Z e == Qmin 255 (inject_Z v * (3 # 2)))%Q.

(** The Color Mapper's purity read literally: with the same index, total,
    scheme and sample frame, the color does not depend on what is cached. *)
Definition getColor_cache_independent : Prop :=
  forall (st1 st2 : visualizer) (index total : float),
    colorScheme st1 = colorScheme st2 ->
    dataArray st1 = dataArray st2 ->
    getColor st1 index total = getColor st2 index total.

(** The waveform scenario read literally, with [K = 128] as the divisor of
    the surface width. *)
Definition waveform_trace_K128 : Prop :=
  forall st : visualizer,
    Forall (fun b => b = 128%Z) (dataArray st) ->
    forall i : nat, (i < List.length (dataArray st))%nat ->
      nth_error (first_path (snd (drawWaveform st))) i
      = Some (of_Z (Z.of_nat i) * (canvas_width st / 128), canvas_height st / 2).

(** The pool bound read literally: at most 100 particles after any sequence
    of particle-field ticks from an empty pool. *)
Definition pool_at_most_100 : Prop :=
  forall (Math_cos Math_sin : float -> float) (st : visualizer)
         (frames : list tick_input),
    visualMode st = "particles"%string -> particles st = [] ->
    (List.length (particles (run Math_cos Math_sin st (map tick frames))) <= 100)%nat.

(** The pool that the next particle-field tick finds, if the event sequence
    contains one. *)
Fixpoint next_particle_tick_pool (Math_cos Math_sin : float -> float)
    (st : visualizer) (evs : list event) : option (list particle) :=
  match evs with
  | [] => None
  | e :: rest =>
      match e with
      | tick _ =>
          if String.eqb (visualMode st) "particles" then Some (particles st)
          else next_particle_tick_pool Math_cos Math_sin
                 (fst (handle Math_cos Math_sin st e)) rest
      | _ => next_particle_tick_pool Math_cos Math_sin
               (fst (handle Math_cos Math_sin st e)) rest
      end
  end.

(** The pool on which the update loop of a particle-field tick runs: the
    pool after the analyser data were refreshed, the reducer has run and the
    spawn loop is over. *)
Definition entering (st : visualizer) (inp : tick_input) : list particle :=
  let st0 := set_dataArray st (fill_from (dataArray st) (frequencyData inp)) in
  spawn (fst (getVisualData st0)) (snd (getVisualData st0)) (random inp).

(** The particles created by that tick. *)
Definition born (st : visualizer) (inp : tick_input) : list particle :=
  skipn (List.length (particles st)) (entering st inp).

(** What becomes, over a sequence of particle-field ticks, of a segment
    [tail] at the end of the pool: newly created particles join it, and each
    tick keeps the survivors. *)
Fixpoint tail_evolution (Math_cos Math_sin : float -> float)
    (st : visualizer) (frames : list tick_input) (tail : list particle)
  : list particle :=
  match frames with
  | [] => tail
  | inp :: rest =>
      tail_evolution Math_cos Math_sin
        (fst (animate Math_cos Math_sin st inp)) rest
        (survivors (canvas_height st) (tail ++ born st inp))
  end.

(** ** Concrete inputs *)

Definition odd_frame : visualizer :=
  mkVisualizer 1000 400 "bars" "fire" 2 [1; 1]%Z None [].

Definition silent_start : visualizer :=
  mkVisualizer 1000 400 "bars" "rainbow" 0 [] None [].

(** A host whose [Math.cos] and [Math.sin] are only called by the circular
    strategy; the runs below never select it. *)
Definition flat_trig (x : float) : float := 0.

(** A fresh visualizer: 1024 bins (fftSize 2048), all zero. *)
Definition fresh (mode scheme : string) : visualizer :=
  mkVisualizer 1000 400 mode scheme 1024 (repeat 0%Z 1024) None [].

(** A fixed sequence of values in [0, 1) standing for [Math.random()]. *)
Definition dice (k : nat) : float :=
  of_Z ((Z.of_nat k * 37 + 11) mod 64) / 64.

(** Analyser contents: a flat time-domain trace with a loud, respectively
    silent, spectrum. *)
Definition loud_frame : tick_input :=
  mkTick (repeat 128%Z 1024) (repeat 255%Z 1024) dice.

Definition silent_frame : tick_input :=
  mkTick (repeat 128%Z 1024) (repeat 0%Z 1024) dice.

Definition after_loud_bars : visualizer :=
  run flat_trig flat_trig (fresh "bars" "fire")
      [tick loud_frame; mode_change "waveform"; tick silent_frame].

Definition after_silent_bars : visualizer :=
  run flat_trig flat_trig (fresh "bars" "fire")
      [tick silent_frame; mode_change "waveform"; tick silent_frame].

Definition flat_waveform : visualizer :=
  mkVisualizer 1000 400 "waveform" "rainbow" 1024 (repeat 128%Z 1024) None [].

(** The first particle created by a loud tick on a fresh visualizer. *)
Definition first_spark : particle :=
  Eval vm_compute in
    hd (mkParticle 0 0 0 0 0 undefined_color 0)
       (entering (fresh "particles" "fire") loud_frame).

Definition later_sparks : list particle :=
  Eval vm_compute in tl (entering (fresh "particles" "fire") loud_frame).

(** ** Definitions for the further properties *)

(** The life of a particle created with 1.0 after [k] passes of the update
    loop. *)
Definition life_after (k : nat) : float := iterate (fun l => l - 0.01) k 1.

(** A particle that has been through at least [lo] and at most 99 passes. *)
Definition aged (lo : nat) (p : particle) : Prop :=
  exists k : nat, (lo <= k <= 99)%nat /\ p_life p = life_after k.

(** A frame whose samples are all at most 53. *)
Definition quiet (d : list Z) : Prop := Forall (fun b => (0 <= b <= 53)%Z) d.

(** The analyser writes bytes. *)
Definition bytes_in (inp : tick_input) : Prop :=
  Forall is_uint8 (timeDomainData inp) /\ Forall is_uint8 (frequencyData inp).

(** For each [fillRect] of a call sequence, the color given by the most
    recent assignment to [shadowColor] before it in that sequence; [cur]
    is what is in force at the start. *)
Fixpoint shadow_at_rects (cur : option color) (cs : list ctx_call)
  : list (option color) :=
  match cs with
  | [] => []
  | fillRect _ _ _ _ :: r => cur :: shadow_at_rects cur r
  | set_shadowColor c :: r => shadow_at_rects (Some c) r
  | _ :: r => shadow_at_rects cur r
  end.

(** The value of the last assignment to [globalAlpha] in a call sequence. *)
Fixpoint last_alpha (acc : option float) (cs : list ctx_call) : option float :=
  match cs with
  | [] => acc
  | set_globalAlpha a :: r => last_alpha (Some a) r
  | _ :: r => last_alpha acc r
  end.

(** The three palettes of the neon scheme for a given intensity. *)
Definition neon_palette (intensity : float) : list color :=
  [ rgb (255 * intensity) 0 (255 * intensity);
    rgb 0 (255 * intensity) (255 * intensity);
    rgb (255 * intensity) (255 * intensity) 0 ].

Definition known_schemes : list string :=
  ["rainbow"; "fire"; "ocean"; "neon"; "purple"]%string.

Definition known_modes : list string :=
  ["bars"; "circular"; "waveform"; "particles"]%string.

(** The domain a tick reads: time domain in waveform mode, frequency domain
    in every other mode. *)
Definition domain_read (st : visualizer) (inp : tick_input) : list Z :=
  if String.eqb (visualMode st) "waveform" then timeDomainData inp
  else frequencyData inp.

(** A frame of 1024 bins whose lower half is loud and whose upper half is
    silent, and one that is loud throughout. *)
Definition half_loud : visualizer :=
  mkVisualizer 1000 400 "bars" "neon" 1024
    (repeat 200%Z 512 ++ repeat 0%Z 512) None [].

Definition all_loud : visualizer :=
  mkVisualizer 1000 400 "bars" "neon" 1024 (repeat 200%Z 1024) None [].

(** Analyser contents whose spectrum stays at 53. *)
Definition quiet_frame : tick_input :=
  mkTick (repeat 128%Z 1024) (repeat 53%Z 1024) dice.

Definition crowded : visualizer :=
  run flat_trig flat_trig (fresh "particles" "fire")
      (map tick (repeat loud_frame 34)).

(** The invariant of the pool: every particle has been through 1 to 99
    passes and is not expired. *)
Definition pool_ok (st : visualizer) : Prop :=
  Forall (fun p => aged 1 p /\ expired (canvas_height st) p = false)
         (particles st).

(** The rectangles among the calls of a sequence. *)
Definition rects (cs : list ctx_call) : list ctx_call :=
  filter (fun c => match c with fillRect _ _ _ _ => true | _ => false end) cs.

(** The visual sample of bar [i], as [drawBars] reads it back. *)
Definition visual_sample (st : visualizer) (i : nat) : Z :=
  nth i (snd (getVisualData st)) 0%Z.

(** A call sequence that does not assign [globalAlpha]. *)
Definition last_alpha_neutral_calls (cs : list ctx_call) : Prop :=
  forall acc : option float, last_alpha acc cs = acc.

(** The frame lengths of an analyser that exceed the 128 visual samples. *)
Definition long_frames : list Z := [256; 512; 1024; 2048; 4096; 8192; 16384]%Z.

(** ** The reducer on an object whose audio setup may have failed *)

(** What a call yields: a value, or the [TypeError] raised by reading a
    property of [undefined]. *)
Inductive outcome (A : Type) : Type :=
| returned (a : A)
| TypeError.

Arguments returned {A} a.
Arguments TypeError {A}.

Definition bind {A B : Type} (m : outcome A) (f : A -> outcome B) : outcome B :=
  match m with
  | returned a => f a
  | TypeError => TypeError
  end.

Notation "x <- m ;; k" := (bind m (fun x => k))
  (at level 61, m at next level, right associativity).

(** [this.bufferLength] and [this.dataArray] as the constructor leaves them.
    [setupAudioAPI] assigns both inside its [try] block and its [catch] only
    reports the error, so after a failure both are [undefined], here [None];
    the constructor goes on to [initializeEventListeners] and [animate]. *)
Record audio_fields : Type := mkAudio {
  maybe_bufferLength : option Z;
  maybe_dataArray : option (list Z)
}.

Definition audio_of (st : visualizer) : audio_fields :=
  mkAudio (Some (bufferLength st)) (Some (dataArray st)).

Definition failed_setup : audio_fields := mkAudio None None.

(** [Math.floor((i / sampleSize) * (this.bufferLength / 2))]: with
    [bufferLength] undefined the quotient is [NaN] and so is the index,
    here [None]. *)
Definition binIndex_of (au : audio_fields) (i : Z) : option Z :=
  option_map
    (fun M => Qfloor ((inject_Z i / inject_Z sampleSize) * (inject_Z M / (2 # 1)))%Q)
    (maybe_bufferLength au).

(** [this.dataArray[binIndex]]: reading a property of [undefined] throws; on
    an array, a key that is [NaN] or not one of its indices gives
    [undefined]. *)
Definition element_of (au : audio_fields) (key : option Z) : outcome (option Z) :=
  match maybe_dataArray au with
  | None => TypeError
  | Some a => returned (match key with
                        | Some k => typed_get a k
                        | None => None
                        end)
  end.

(** The iterations of the loop of [getVisualData] for the given indices;
    the first read that throws ends the call. *)
Fixpoint reduce_from (au : audio_fields) (indices : list nat) : outcome (list Z) :=
  match indices with
  | [] => returned []
  | i :: rest =>
      sample <- element_of au (binIndex_of au (Z.of_nat i)) ;;
      tail <- reduce_from au rest ;;
      returned
        (to_uint8 (min255 (option_map (fun v => (inject_Z v * amplification)%Q) sample))
         :: tail)
  end.

(** [getVisualData()] on such an object: the array it returns, or the
    error it raises.  [this.currentVisualData] is assigned after the loop,
    hence only when nothing was thrown. *)
Definition getVisualData_checked (au : audio_fields) : outcome (list Z) :=
  reduce_from au (seq 0 (Z.to_nat sampleSize)).

(** * Properties *)

Local Open Scope Z_scope.

(** ** Visual Sample Reducer *)

Lemma typed_get_Some (a : list Z) (k : Z) :
  0 <= k < Z.of_nat (List.length a) ->
  exists v, typed_get a k = Some v /\ In v a.
Proof.
  intros H. unfold typed_get.
  destruct (Z.ltb_spec k 0) as [Hk|Hk]; [lia|].
  destruct (nth_error a (Z.to_nat k)) as [v|] eqn:E.
  - exists v. split; [reflexivity|]. eapply nth_error_In; eassumption.
  - apply nth_error_None in E. lia.
Qed.

Lemma typed_get_nil (k : Z) : typed_get [] k = None.
Proof.
  unfold typed_get. destruct (k <? 0); [reflexivity|].
  destruct (Z.to_nat k); reflexivity.
Qed.

Lemma typed_get_map_seq (f : nat -> Z) (n : nat) (i : Z) :
  0 <= i < Z.of_nat n ->
  typed_get (map f (seq 0 n)) i = Some (f (Z.to_nat i)).
Proof.
  intros H. unfold typed_get.
  destruct (Z.ltb_spec i 0) as [Hi|Hi]; [lia|].
  rewrite nth_error_map, nth_error_seq.
  destruct (Nat.ltb_spec (Z.to_nat i) n) as [L|L]; [reflexivity|lia].
Qed.

(** The index computation is an integer division. *)
Lemma binIndex_div (st : visualizer) (i : Z) :
  binIndex st i = (i * bufferLength st) / 256.
Proof.
  unfold binIndex, sampleSize. cbn.
  f_equal. ring.
Qed.

Lemma binIndex_in_range (st : visualizer) (i : Z) :
  0 <= i < 128 -> 1 <= bufferLength st ->
  0 <= binIndex st i < bufferLength st.
Proof.
  intros Hi HM. rewrite binIndex_div. split.
  - apply Z.div_pos; nia.
  - apply Z.div_lt_upper_bound; nia.
Qed.

(** What a byte becomes: amplified by 3/2, capped at 255, truncated. *)
Lemma amplified_value (v : Z) :
  (inject_Z v * amplification)%Q = (v * 3 # 2).
Proof. reflexivity. Qed.

Lemma stored_byte (v : Z) :
  is_uint8 v ->
  to_uint8 (min255 (Some (inject_Z v * amplification)%Q)) = Z.min 255 (3 * v / 2).
Proof.
  unfold is_uint8. intros Hv. rewrite amplified_value.
  unfold to_uint8, min255.
  replace (3 * v) with (v * 3) by ring.
  destruct (Qle_bool 255 (v * 3 # 2)) eqn:E; unfold Qle_bool in E; cbn in E.
  - apply Z.leb_le in E. change (Qtruncate 255 mod 256) with 255.
    rewrite Z.min_l; [reflexivity|]. apply Z.div_le_lower_bound; lia.
  - apply Z.leb_gt in E. unfold Qtruncate, Qle_bool. cbn [Qnum Qden].
    destruct (Z.leb_spec (0 * 2) (v * 3 * 1)) as [P|P]; [|lia].
    change (Qfloor (v * 3 # 2)) with (v * 3 / 2).
    assert (B : 0 <= v * 3 / 2 < 255).
    { split; [apply Z.div_pos; lia | apply Z.div_lt_upper_bound; lia]. }
    rewrite Z.mod_small by lia. lia.
Qed.

Lemma floor_min255 (v : Z) :
  Qfloor (Qmin 255 (inject_Z v * (3 # 2))) = Z.min 255 (3 * v / 2).
Proof.
  assert (F : Qfloor (inject_Z v * (3 # 2)) = 3 * v / 2).
  { change (Qfloor (inject_Z v * (3 # 2))) with (v * 3 / 2).
    f_equal. ring. }
  destruct (Q.min_spec 255 (inject_Z v * (3 # 2))) as [[L E]|[L E]];
    rewrite (Qfloor_comp _ _ E).
  - change (Qfloor 255) with 255.
    apply Qlt_le_weak, Qfloor_resp_le in L. rewrite F in L.
    change (Qfloor 255) with 255 in L. lia.
  - rewrite F. apply Qfloor_resp_le in L. rewrite F in L.
    change (Qfloor 255) with 255 in L. lia.
Qed.

Lemma visualData_length (st : visualizer) :
  List.length (snd (getVisualData st)) = 128%nat.
Proof.
  unfold getVisualData, visualData_of. cbn [snd].
  rewrite length_map, length_seq. reflexivity.
Qed.

Lemma visualData_elem (st : visualizer) (i : Z) :
  0 <= i < 128 ->
  typed_get (snd (getVisualData st)) i = Some (to_uint8 (amplified st i)).
Proof.
  intros Hi. unfold getVisualData, visualData_of. cbn [snd].
  rewrite typed_get_map_seq by (change (Z.of_nat (Z.to_nat sampleSize)) with 128; lia).
  rewrite Z2Nat.id by lia. reflexivity.
Qed.

(** C1 (as amended).  For a frame of [M >= 2] bytes, [getVisualData] returns
    exactly 128 elements, and element [i] is the integer part of
    [min(255, frame[floor(i/128 * M/2)] * 1.5)], a value in [0, 255]: the
    [Uint8Array] store drops the fractional half that an odd sample leaves. *)
Theorem getVisualData_elements (st : visualizer) :
  frame_ok st -> 2 <= bufferLength st ->
  List.length (snd (getVisualData st)) = 128%nat /\
  forall i : Z, 0 <= i < 128 ->
    exists v : Z,
      typed_get (dataArray st)
        (Qfloor ((inject_Z i / 128) * (inject_Z (bufferLength st) / 2))%Q) = Some v /\
      typed_get (snd (getVisualData st)) i
        = Some (Qfloor (Qmin 255 (inject_Z v * (3 # 2)))) /\
      is_uint8 (Qfloor (Qmin 255 (inject_Z v * (3 # 2)))).
Proof.
  intros [HL HB] HM. split; [apply visualData_length|].
  intros i Hi.
  change (Qfloor ((inject_Z i / 128) * (inject_Z (bufferLength st) / 2))%Q)
    with (binIndex st i).
  destruct (typed_get_Some (dataArray st) (binIndex st i)) as [v [Hv Hin]].
  { rewrite <- HL. apply binIndex_in_range; lia. }
  assert (Bv : is_uint8 v) by (rewrite Forall_forall in HB; auto).
  exists v. rewrite floor_min255. split; [exact Hv|]. split.
  - rewrite visualData_elem by exact Hi.
    unfold amplified. rewrite Hv. cbn [option_map].
    rewrite stored_byte by exact Bv. reflexivity.
  - unfold is_uint8 in *.
    assert (0 <= 3 * v / 2) by (apply Z.div_pos; lia). lia.
Qed.

Lemma getVisualData_elements_witness :
  frame_ok odd_frame /\ 2 <= bufferLength odd_frame /\
  List.length (snd (getVisualData odd_frame)) = 128%nat.
Proof.
  assert (F : frame_ok odd_frame).
  { split; [reflexivity|]. repeat constructor; unfold is_uint8; lia. }
  assert (M : 2 <= bufferLength odd_frame) by (cbn; lia).
  split; [exact F|]. split; [exact M|].
  exact (proj1 (getVisualData_elements odd_frame F M)).
Defined.

(** The literal formula fails on a frame of two samples of value 1: the
    product is 3/2, the stored element is 1. *)
Lemma reducer_formula_unrounded_fails : ~ reducer_formula_unrounded.
Proof.
  intros H.
  destruct (H odd_frame) with (i := 0) as [v [e [Hv [He Heq]]]].
  - split; [reflexivity|]. repeat constructor; unfold is_uint8; lia.
  - cbn; lia.
  - lia.
  - vm_compute in Hv. injection Hv as <-.
    vm_compute in He. injection He as <-.
    vm_compute in Heq. discriminate Heq.
Qed.

(** A frame that holds only zeros, of whatever length, is reduced to
    zeros: a lookup yields 0 or [undefined], and both are stored as 0. *)
Lemma getVisualData_silent_frame (st : visualizer) :
  Forall (fun b => b = 0) (dataArray st) ->
  snd (getVisualData st) = repeat 0 128.
Proof.
  intros HZ. unfold getVisualData, visualData_of. cbn [snd].
  assert (E : forall i, to_uint8 (amplified st i) = 0).
  { intros i. unfold amplified, typed_get.
    destruct (binIndex st i <? 0); [reflexivity|].
    destruct (nth_error (dataArray st) (Z.to_nat (binIndex st i))) as [v|] eqn:N;
      [|reflexivity].
    rewrite Forall_forall in HZ. rewrite (HZ v (nth_error_In _ _ N)). reflexivity. }
  change (Z.to_nat sampleSize) with 128%nat.
  generalize 0%nat at 1. generalize 128%nat.
  induction n as [|n IH]; intros s; cbn [seq map repeat].
  - reflexivity.
  - rewrite E, IH. reflexivity.
Qed.

(** On an object whose audio setup succeeded and whose frame has length 0,
    every lookup is [undefined], the product is [NaN], and the typed array
    stores 0: the result is 128 zeros. *)
Theorem getVisualData_empty_frame (st : visualizer) :
  dataArray st = [] -> bufferLength st = 0 ->
  snd (getVisualData st) = repeat 0 128.
Proof.
  intros HD _. apply getVisualData_silent_frame.
  rewrite HD. constructor.
Qed.

Lemma getVisualData_empty_frame_witness :
  dataArray silent_start = [] /\ bufferLength silent_start = 0 /\
  snd (getVisualData silent_start) = repeat 0 128.
Proof.
  split; [reflexivity|]. split; [reflexivity|].
  apply getVisualData_empty_frame; reflexivity.
Defined.

(** On an object whose setup succeeded nothing is thrown, and the array
    returned is the one [getVisualData] computes. *)
Lemma reduce_from_ready (st : visualizer) (indices : list nat) :
  reduce_from (audio_of st) indices =
  returned (map (fun i => to_uint8 (amplified st (Z.of_nat i))) indices).
Proof.
  induction indices as [|i rest IH]; [reflexivity|].
  cbn [reduce_from]. unfold element_of, binIndex_of, audio_of.
  cbn [maybe_dataArray maybe_bufferLength option_map bind].
  fold (audio_of st). rewrite IH. reflexivity.
Qed.

Lemma getVisualData_checked_ready (st : visualizer) :
  getVisualData_checked (audio_of st) = returned (snd (getVisualData st)).
Proof. apply reduce_from_ready. Qed.

(** Without a frame the first iteration already throws. *)
Lemma reduce_from_no_frame (bl : option Z) (i : nat) (rest : list nat) :
  reduce_from (mkAudio bl None) (i :: rest) = TypeError.
Proof. reflexivity. Qed.

Lemma getVisualData_checked_no_frame (bl : option Z) :
  getVisualData_checked (mkAudio bl None) = TypeError.
Proof. apply reduce_from_no_frame. Qed.

(** With a frame every read gives a value or [undefined], and every
    iteration stores a byte. *)
Lemma reduce_from_frame (bl : option Z) (d : list Z) (indices : list nat) :
  exists out,
    reduce_from (mkAudio bl (Some d)) indices = returned out /\
    List.length out = List.length indices /\
    Forall is_uint8 out.
Proof.
  induction indices as [|i rest IH].
  - exists []. repeat split. constructor.
  - destruct IH as (tail & E & L & B).
    cbn [reduce_from]. unfold element_of at 1. cbn [maybe_dataArray bind].
    rewrite E. cbn [bind]. eexists. split; [reflexivity|]. split.
    + cbn [List.length]. now rewrite L.
    + constructor; [|exact B].
      unfold is_uint8, to_uint8.
      destruct (min255 _) as [q|]; [|lia].
      pose proof (Z.mod_pos_bound (Qtruncate q) 256). lia.
Qed.

(** A read that gives [undefined] at every index stores only zeros: the
    frame of length 0, and any frame when [bufferLength] is [undefined]. *)
Lemma reduce_from_zeros (au : audio_fields) (d : list Z) (indices : list nat) :
  maybe_dataArray au = Some d ->
  (forall i, match binIndex_of au i with
             | Some k => typed_get d k
             | None => None
             end = None) ->
  reduce_from au indices = returned (repeat 0 (List.length indices)).
Proof.
  intros HD HN. induction indices as [|i rest IH]; [reflexivity|].
  cbn [reduce_from]. unfold element_of at 1. rewrite HD, HN. cbn [bind].
  rewrite IH. reflexivity.
Qed.

Lemma getVisualData_checked_empty_frame (bl : option Z) :
  getVisualData_checked (mkAudio bl (Some [])) = returned (repeat 0 128).
Proof.
  unfold getVisualData_checked.
  rewrite (reduce_from_zeros (mkAudio bl (Some [])) [] _ eq_refl).
  - reflexivity.
  - intros i. destruct (binIndex_of _ i); [apply typed_get_nil|reflexivity].
Qed.

(** C4.  The claim covers two inputs, the missing frame and the frame of
    length 0, and the code treats them differently.  After a failed
    [setupAudioAPI] ([failed_setup]; more generally whenever
    [this.dataArray] is [undefined]) the call raises a [TypeError] at its
    first read and returns nothing, where the claim has 128 zeros and no
    error.  On a frame of length 0 the call returns 128 zeros, as
    claimed. *)
Theorem getVisualData_missing_frame_throws :
  getVisualData_checked failed_setup = TypeError /\
  (forall bl, getVisualData_checked (mkAudio bl None) = TypeError) /\
  (forall bl, getVisualData_checked (mkAudio bl (Some [])) = returned (repeat 0 128)).
Proof.
  split; [|split].
  - apply getVisualData_checked_no_frame.
  - apply getVisualData_checked_no_frame.
  - apply getVisualData_checked_empty_frame.
Qed.

(** ** Double-precision facts *)

Local Open Scope float_scope.

Lemma digits2_pos_shift52 (m : positive) :
  digits2_pos (4503599627370496 * m) = (digits2_pos m + 52)%positive.
Proof.
  change (4503599627370496 * m)%positive with (Pos.iter xO m 52%positive).
  cbn [Pos.iter digits2_pos]. lia.
Qed.

(** Multiplying a valid binary64 number by 1 (mantissa [2^52], exponent
    [-52]) shifts the product back by 52 bits without rounding. *)
Lemma SF64mul_one (s : bool) (m : positive) (e : Z) :
  valid_binary (S754_finite s m e) = true ->
  SF64mul (S754_finite false 4503599627370496 (-52)) (S754_finite s m e)
  = S754_finite s m e.
Proof.
  intros V.
  unfold SpecFloat.valid_binary, bounded, canonical_mantissa in V.
  apply andb_true_iff in V. destruct V as [C B].
  apply Z.eqb_eq in C.
  unfold SF64mul, SFmul, binary_round_aux. cbn [xorb].
  assert (S1 : shr_fexp prec emax (Z.pos (4503599627370496 * m)) (-52 + e) loc_Exact
               = ({| shr_m := Z.pos m; shr_r := false; shr_s := false |}, e)).
  { unfold shr_fexp. cbn [Zdigits2]. rewrite digits2_pos_shift52.
    replace (Z.pos (digits2_pos m + 52) + (-52 + e))%Z
      with (Z.pos (digits2_pos m) + e)%Z by lia.
    rewrite C. replace (e - (-52 + e))%Z with 52%Z by lia.
    unfold shr, shr_record_of_loc.
    change (4503599627370496 * m)%positive with (Pos.iter xO m 52%positive).
    cbn [Pos.iter iter_pos shr_1 orb].
    f_equal. lia. }
  rewrite S1. cbn [shr_m loc_of_shr_record round_nearest_even].
  assert (S2 : shr_fexp prec emax (Z.pos m) e loc_Exact
               = ({| shr_m := Z.pos m; shr_r := false; shr_s := false |}, e)).
  { unfold shr_fexp. cbn [Zdigits2]. rewrite C, Z.sub_diag. reflexivity. }
  rewrite S2. cbn [shr_m]. rewrite B. reflexivity.
Qed.

Lemma float_mul_1_l (h : float) : 1 * h = h.
Proof.
  apply Prim2SF_inj. rewrite FloatAxioms.mul_spec.
  change (Prim2SF 1) with (S754_finite false 4503599627370496 (-52)).
  generalize (Prim2SF_valid h).
  destruct (Prim2SF h) as [s|s| |s m e]; intros V; try reflexivity.
  apply SF64mul_one; exact V.
Qed.

(** ** Color Mapper *)

Lemma getColor_colorFor (st : visualizer) (index total : float) :
  getColor st index total
  = colorFor index total (sample_or_zero (dataSource st) index) (colorScheme st).
Proof. reflexivity. Qed.

Lemma sample_or_zero_beyond (d : list Z) (index : float) (k : Z) :
  key_of index = Some k -> (Z.of_nat (List.length d) <= k)%Z ->
  sample_or_zero d index = 0%Z.
Proof.
  intros K L. unfold sample_or_zero, float_get, typed_get. rewrite K.
  destruct (k <? 0)%Z; [reflexivity|].
  destruct (nth_error d (Z.to_nat k)) as [v|] eqn:E; [|reflexivity].
  assert (nth_error d (Z.to_nat k) <> None) by congruence.
  apply nth_error_Some in H. lia.
Qed.

(** C3 (as amended).  [getColor] reads two things of the object: the selected
    scheme and the value it finds at [index] in the cached visual array (in
    the raw frame while nothing is cached; 0 when the entry is absent).  Two
    calls that agree on index, total, scheme and that value return the same
    color, which is the one the explicit mapper [colorFor] gives for them. *)
Theorem getColor_determined (st1 st2 : visualizer) (index total : float) :
  colorScheme st1 = colorScheme st2 ->
  sample_or_zero (dataSource st1) index = sample_or_zero (dataSource st2) index ->
  getColor st1 index total = getColor st2 index total /\
  getColor st1 index total
  = colorFor index total (sample_or_zero (dataSource st1) index) (colorScheme st1).
Proof.
  intros Hs Hv. split; [|apply getColor_colorFor].
  rewrite !getColor_colorFor, Hs, Hv. reflexivity.
Qed.

Lemma getColor_determined_witness :
  colorScheme after_loud_bars = colorScheme after_silent_bars /\
  sample_or_zero (dataSource after_loud_bars) 512
  = sample_or_zero (dataSource after_silent_bars) 512 /\
  getColor after_loud_bars 512 1024 = getColor after_silent_bars 512 1024.
Proof.
  assert (S : colorScheme after_loud_bars = colorScheme after_silent_bars)
    by (vm_compute; reflexivity).
  assert (V : sample_or_zero (dataSource after_loud_bars) 512
              = sample_or_zero (dataSource after_silent_bars) 512)
    by (vm_compute; reflexivity).
  split; [exact S|]. split; [exact V|].
  exact (proj1 (getColor_determined after_loud_bars after_silent_bars 512 1024 S V)).
Defined.

(** The cache is hidden state.  Two runs end with the same waveform tick on
    the same time-domain frame; the spectrum shown by an earlier bars tick
    still decides the color of the gradient's first stop. *)
Lemma getColor_cache_dependent : ~ getColor_cache_independent.
Proof.
  intros H.
  specialize (H after_loud_bars after_silent_bars 0 1024).
  assert (E : getColor after_loud_bars 0 1024 = getColor after_silent_bars 0 1024).
  { apply H; vm_compute; reflexivity. }
  vm_compute in E. discriminate E.
Qed.

Lemma visualData_head_of_peak (st : visualizer) (rest : list Z) :
  dataArray st = 255%Z :: rest ->
  typed_get (snd (getVisualData st)) 0 = Some 255%Z.
Proof.
  intros HD. rewrite visualData_elem by lia.
  unfold amplified. rewrite binIndex_div, HD. reflexivity.
Qed.

(** C8.  With a frame whose element 0 is 255 and whose other elements are 0,
    and the fire scheme, the color for index 0 after the reducer has run is
    [hsl(60, 100%, 90%)], whatever [total] is. *)
Theorem fire_color_of_peak (st : visualizer) (n : nat) (total : float) :
  colorScheme st = "fire"%string ->
  dataArray st = 255%Z :: repeat 0%Z n ->
  getColor (fst (getVisualData st)) 0 total = hsl 60 100 90.
Proof.
  intros HS HD.
  rewrite getColor_colorFor.
  change (colorScheme (fst (getVisualData st))) with (colorScheme st).
  change (dataSource (fst (getVisualData st))) with (snd (getVisualData st)).
  rewrite HS.
  assert (V : sample_or_zero (snd (getVisualData st)) 0 = 255%Z).
  { unfold sample_or_zero, float_get.
    change (key_of 0) with (Some 0%Z). cbv beta iota.
    rewrite (visualData_head_of_peak st _ HD). reflexivity. }
  rewrite V. vm_compute. reflexivity.
Qed.

Lemma fire_color_of_peak_witness :
  getColor (fst (getVisualData
     (mkVisualizer 1000 400 "bars" "fire" 1024 (255%Z :: repeat 0%Z 1023) None [])))
     0 128
  = hsl 60 100 90.
Proof.
  apply (fire_color_of_peak _ 1023%nat 128); reflexivity.
Defined.



(** In that waveform tick the sample drawn at index 0 is 128, and the color
    of the first stop is not the one the mapper gives for 128. *)
Lemma waveform_gradient_ignores_frame :
  typed_get (dataArray after_loud_bars) 0 = Some 128%Z /\
  getColor after_loud_bars 0 1024 <> colorFor 0 1024 128 "fire".
Proof.
  split; [vm_compute; reflexivity|].
  intros E. vm_compute in E. discriminate E.
Qed.

(** ** Waveform strategy *)

Lemma first_path_trace (f : nat -> float * float) (l : list nat)
    (rest : list ctx_call) :
  first_path (map (fun i => trace_call i (f i)) l ++ rest)
  = map f l ++ first_path rest.
Proof.
  induction l as [|i l IH]; cbn [map app].
  - reflexivity.
  - destruct i; cbn [trace_call first_path]; rewrite IH;
      destruct (f _); reflexivity.
Qed.

Lemma first_path_drawWaveform (st : visualizer) :
  first_path (snd (drawWaveform st))
  = map (waveform_point st (canvas_width st / array_length (dataArray st)))
        (seq 0 (List.length (dataArray st))).
Proof.
  unfold drawWaveform. cbn [snd app first_path].
  rewrite first_path_trace. cbn [first_path app]. apply app_nil_r.
Qed.

Lemma waveform_point_centre (st : visualizer) (sliceWidth : float) (i : nat) :
  nth_error (dataArray st) i = Some 128%Z ->
  waveform_point st sliceWidth i
  = (of_Z (Z.of_nat i) * sliceWidth, canvas_height st / 2).
Proof.
  intros H. unfold waveform_point. rewrite H. cbn [to_number].
  change (of_Z 128 / 128) with 1. rewrite float_mul_1_l. reflexivity.
Qed.

(** C7 (as amended).  On a frame whose samples all equal 128 the main trace
    is flat at [height / 2]; it has one point per sample of the raw frame,
    and point [i] lies at [x = i * (width / M)], [M] being the length of the
    raw frame. *)
Theorem drawWaveform_flat_centerline (st : visualizer) :
  Forall (fun b => b = 128%Z) (dataArray st) ->
  first_path (snd (drawWaveform st))
  = map (fun i => (of_Z (Z.of_nat i)
                     * (canvas_width st / of_Z (Z.of_nat (List.length (dataArray st)))),
                   canvas_height st / 2))
        (seq 0 (List.length (dataArray st))).
Proof.
  intros H. rewrite first_path_drawWaveform.
  apply map_ext_in. intros i Hi. apply in_seq in Hi.
  apply waveform_point_centre.
  destruct (nth_error (dataArray st) i) as [b|] eqn:E.
  - rewrite Forall_forall in H. rewrite (H b); [reflexivity|].
    eapply nth_error_In; eassumption.
  - apply nth_error_None in E. lia.
Qed.

Lemma drawWaveform_flat_centerline_witness :
  Forall (fun b => b = 128%Z) (dataArray flat_waveform) /\
  nth_error (first_path (snd (drawWaveform flat_waveform))) 1
  = Some (0.9765625, 200).
Proof.
  assert (F : Forall (fun b => b = 128%Z) (dataArray flat_waveform)).
  { apply Forall_forall. intros b Hb. apply repeat_spec in Hb. exact Hb. }
  split; [exact F|].
  rewrite (drawWaveform_flat_centerline flat_waveform F).
  vm_compute. reflexivity.
Defined.

(** With the analyser's 1024-sample frame on a surface 1000 wide, point 1 is
    at [x = 1000/1024], not at [1000/128]. *)
Lemma waveform_trace_K128_fails : ~ waveform_trace_K128.
Proof.
  intros H. specialize (H flat_waveform).
  assert (E : nth_error (first_path (snd (drawWaveform flat_waveform))) 1
              = Some (of_Z (Z.of_nat 1) * (canvas_width flat_waveform / 128),
                      canvas_height flat_waveform / 2)).
  { apply H.
    - apply Forall_forall. intros b Hb. apply repeat_spec in Hb. exact Hb.
    - vm_compute. lia. }
  vm_compute in E. discriminate E.
Qed.

(** ** Particle pool *)

Lemma survivors_app (h : float) (a b : list particle) :
  survivors h (a ++ b) = survivors h a ++ survivors h b.
Proof. unfold survivors. rewrite map_app, filter_app. reflexivity. Qed.

Lemma survivors_length (h : float) (ps : list particle) :
  (List.length (survivors h ps) <= List.length ps)%nat.
Proof.
  unfold survivors. etransitivity; [apply filter_length_le|].
  rewrite length_map. reflexivity.
Qed.

Lemma nth_error_middle (front : list particle) (p : particle) (back : list particle) :
  nth_error (front ++ p :: back) (List.length front) = Some p.
Proof.
  rewrite nth_error_app2, Nat.sub_diag by reflexivity. reflexivity.
Qed.

Lemma splice1_middle (front : list particle) (p : particle) (back : list particle) :
  splice1 (List.length front) (front ++ p :: back) = front ++ back.
Proof.
  unfold splice1.
  rewrite firstn_app, firstn_all, Nat.sub_diag, app_nil_r.
  change (S (List.length front)) with (1 + List.length front)%nat.
  rewrite <- skipn_skipn, skipn_app, skipn_all, Nat.sub_diag.
  reflexivity.
Qed.

Lemma store_middle (front : list particle) (p q : particle) (back : list particle) :
  store (List.length front) q (front ++ p :: back) = front ++ q :: back.
Proof.
  unfold store.
  rewrite firstn_app, firstn_all, Nat.sub_diag, app_nil_r.
  change (S (List.length front)) with (1 + List.length front)%nat.
  rewrite <- skipn_skipn, skipn_app, skipn_all, Nat.sub_diag.
  reflexivity.
Qed.

(** The backwards loop with in-place removal leaves the part of the pool it
    has passed untouched and computes [survivors] on the rest. *)
Lemma update_loop_pool (h : float) (front back : list particle) :
  fst (update_loop h (List.length front) (front ++ back))
  = survivors h front ++ back.
Proof.
  revert back. induction front as [|p front IH] using rev_ind; intros back.
  - reflexivity.
  - rewrite length_app, Nat.add_comm. cbn [List.length Nat.add update_loop].
    rewrite <- app_assoc. cbn [app].
    rewrite nth_error_middle, survivors_app.
    unfold survivors at 2. cbn [map filter].
    destruct (expired h (move p)); cbn [negb].
    + rewrite splice1_middle, IH, app_nil_r. reflexivity.
    + rewrite store_middle. cbn [fst]. rewrite IH, <- app_assoc. reflexivity.
Qed.

Lemma update_loop_survivors (h : float) (ps : list particle) :
  fst (update_loop h (List.length ps) ps) = survivors h ps.
Proof.
  rewrite <- (app_nil_r ps) at 2. rewrite update_loop_pool. apply app_nil_r.
Qed.

Lemma spawn_one_grows (st : visualizer) (vd : list Z) (rnd : nat -> float)
    (acc : nat * list particle) :
  exists e, snd (spawn_one st vd rnd acc) = snd acc ++ e /\ (List.length e <= 1)%nat.
Proof.
  unfold spawn_one.
  destruct (float_get vd _) as [v|]; [destruct (80 <? v)%Z|]; cbn [snd].
  - eexists. split; [reflexivity|]. cbn. lia.
  - exists []. rewrite app_nil_r. split; [reflexivity|]. cbn. lia.
  - exists []. rewrite app_nil_r. split; [reflexivity|]. cbn. lia.
Qed.

(** The spawn step appends at most three particles, and none once the pool
    holds 100. *)
Lemma spawn_grows (st : visualizer) (vd : list Z) (rnd : nat -> float) :
  exists e, spawn st vd rnd = particles st ++ e /\
            (List.length e <= 3)%nat /\
            ((100 <= List.length (particles st))%nat -> e = []).
Proof.
  unfold spawn.
  destruct (Nat.ltb_spec (List.length (particles st)) 100) as [L|L].
  - cbn [seq fold_left].
    set (a0 := (O, particles st)).
    destruct (spawn_one_grows st vd rnd a0) as [e1 [E1 L1]].
    set (a1 := spawn_one st vd rnd a0) in *.
    destruct (spawn_one_grows st vd rnd a1) as [e2 [E2 L2]].
    set (a2 := spawn_one st vd rnd a1) in *.
    destruct (spawn_one_grows st vd rnd a2) as [e3 [E3 L3]].
    exists (e1 ++ e2 ++ e3).
    rewrite E3, E2, E1. subst a0. cbn [snd].
    rewrite <- !app_assoc, !length_app.
    split; [reflexivity|]. split; lia.
  - exists []. rewrite app_nil_r. split; [reflexivity|]. split; [cbn; lia|reflexivity].
Qed.

Lemma entering_grows (st : visualizer) (inp : tick_input) :
  exists e, entering st inp = particles st ++ e /\
            (List.length e <= 3)%nat /\
            ((100 <= List.length (particles st))%nat -> e = []).
Proof.
  unfold entering.
  exact (spawn_grows (fst (getVisualData
           (set_dataArray st (fill_from (dataArray st) (frequencyData inp)))))
           _ (random inp)).
Qed.

Lemma entering_born (st : visualizer) (inp : tick_input) :
  entering st inp = particles st ++ born st inp.
Proof.
  unfold born. destruct (entering_grows st inp) as [e [E _]].
  rewrite E, skipn_app, skipn_all, Nat.sub_diag. reflexivity.
Qed.

Lemma entering_length (st : visualizer) (inp : tick_input) :
  (List.length (particles st) <= 102 ->
   List.length (entering st inp) <= 102)%nat.
Proof.
  intros H. destruct (entering_grows st inp) as [e [E [L Z]]].
  rewrite E, length_app.
  destruct (Nat.ltb_spec (List.length (particles st)) 100) as [B|B].
  - lia.
  - rewrite (Z B). cbn. lia.
Qed.

Section Scheduler.

Variables Math_cos Math_sin : float -> float.

Notation animate := (animate Math_cos Math_sin).
Notation handle := (handle Math_cos Math_sin).
Notation run := (run Math_cos Math_sin).

Lemma animate_particles_pool (st : visualizer) (inp : tick_input) :
  visualMode st = "particles"%string ->
  particles (fst (animate st inp))
  = survivors (canvas_height st) (entering st inp).
Proof.
  intros M. unfold animate. rewrite M. cbn [String.eqb Ascii.eqb Bool.eqb].
  unfold drawParticles, entering. cbn [getVisualData fst snd particles set_particles].
  apply update_loop_survivors.
Qed.

Lemma animate_other_pool (st : visualizer) (inp : tick_input) :
  visualMode st <> "particles"%string ->
  particles (fst (animate st inp)) = particles st.
Proof.
  intros M. unfold animate.
  destruct (String.eqb_spec (visualMode st) "waveform") as [W|W].
  - rewrite W. reflexivity.
  - destruct (String.eqb_spec (visualMode st) "bars") as [B|B]; [reflexivity|].
    destruct (String.eqb_spec (visualMode st) "circular") as [C|C]; [reflexivity|].
    destruct (String.eqb_spec (visualMode st) "particles") as [P|P]; [contradiction|].
    reflexivity.
Qed.

Lemma animate_keeps_surface (st : visualizer) (inp : tick_input) :
  canvas_height (fst (animate st inp)) = canvas_height st /\
  visualMode (fst (animate st inp)) = visualMode st.
Proof.
  unfold animate.
  destruct (String.eqb_spec (visualMode st) "waveform") as [W|W];
    destruct (String.eqb_spec (visualMode st) "bars") as [B|B];
    destruct (String.eqb_spec (visualMode st) "circular") as [C|C];
    destruct (String.eqb_spec (visualMode st) "particles") as [P|P];
    try (split; reflexivity); congruence.
Qed.

End Scheduler.

Lemma iterate_S {A : Type} (f : A -> A) (n : nat) (a : A) :
  iterate f (S n) a = f (iterate f n a).
Proof. reflexivity. Qed.

Lemma iterate_S_r {A : Type} (f : A -> A) (n : nat) (a : A) :
  iterate f (S n) a = iterate f n (f a).
Proof. unfold iterate. apply Nat.iter_succ_r. Qed.

Lemma forallb_seq (f : nat -> bool) (a n k : nat) :
  forallb f (seq a n) = true -> (a <= k < a + n)%nat -> f k = true.
Proof.
  intros H Hk. rewrite forallb_forall in H. apply H, in_seq. exact Hk.
Qed.

Lemma life_iterate (p : particle) (k : nat) :
  p_life (iterate move k p) = iterate (fun l => l - 0.01) k (p_life p).
Proof.
  induction k as [|k IH]; [reflexivity|].
  rewrite !iterate_S, <- IH. reflexivity.
Qed.

(** In double precision the life of a particle that starts at 1.0 is still
    positive after 99 decrements and is below zero after the 100th. *)
Lemma life_positive_until_100 (k : nat) :
  (1 <= k < 100)%nat -> (iterate (fun l => l - 0.01) k 1 <=? 0) = false.
Proof.
  intros Hk.
  apply (forallb_seq (fun k => negb (iterate (fun l => l - 0.01) k 1 <=? 0)) 1 99)
    in Hk; [|vm_compute; reflexivity].
  apply negb_true_iff in Hk. exact Hk.
Qed.

Lemma life_spent_at_100 : (iterate (fun l => l - 0.01) 100 1 <=? 0) = true.
Proof. vm_compute. reflexivity. Qed.

(** The slot of a particle that enters the update loop with life 1.0 and
    stays on the surface: occupied by its image for fewer than 100 ticks,
    empty from the 100th on. *)
Lemma lifetime_slot (h : float) (p : particle) :
  p_life p = 1 ->
  (forall k, (1 <= k < 100)%nat -> (h <? p_y (iterate move k p)) = false) ->
  forall k, iterate (survivors h) k [p]
            = if (k <? 100)%nat then [iterate move k p] else [].
Proof.
  intros HL HY. induction k as [|k IH]; [reflexivity|].
  rewrite iterate_S, IH.
  destruct (Nat.ltb_spec k 100) as [K|K].
  - unfold survivors. cbn [map filter].
    change (move (iterate move k p)) with (iterate move (S k) p).
    unfold expired. rewrite life_iterate, HL.
    destruct (Nat.ltb_spec (S k) 100) as [K'|K'].
    + rewrite life_positive_until_100, HY by lia. reflexivity.
    + replace (S k) with 100%nat by lia.
      rewrite life_spent_at_100. reflexivity.
  - destruct (Nat.ltb_spec (S k) 100) as [K'|K']; [lia|reflexivity].
Qed.

Section Pool.

Variables Math_cos Math_sin : float -> float.

Notation animate := (animate Math_cos Math_sin).
Notation handle := (handle Math_cos Math_sin).
Notation run := (run Math_cos Math_sin).

Lemma run_cons (st : visualizer) (e : event) (evs : list event) :
  run st (e :: evs) = run (fst (handle st e)) evs.
Proof. reflexivity. Qed.

Lemma handle_other_pool (st : visualizer) (e : event) :
  (forall m, e <> mode_change m) ->
  (forall inp, e = tick inp -> visualMode st <> "particles"%string) ->
  particles (fst (handle st e)) = particles st.
Proof.
  intros NM NT. destruct e as [inp|m|s|w]; cbn [handle fst].
  - apply animate_other_pool. exact (NT inp eq_refl).
  - exfalso. exact (NM m eq_refl).
  - reflexivity.
  - reflexivity.
Qed.

Lemma handle_pool_bound (st : visualizer) (e : event) :
  (List.length (particles st) <= 102)%nat ->
  (List.length (particles (fst (handle st e))) <= 102)%nat.
Proof.
  intros H. destruct e as [inp|m|s|w]; cbn [handle fst].
  - destruct (String.eqb_spec (visualMode st) "particles") as [P|P].
    + rewrite animate_particles_pool by exact P.
      etransitivity; [apply survivors_length|]. apply entering_length, H.
    + rewrite animate_other_pool by exact P. exact H.
  - cbn. lia.
  - exact H.
  - exact H.
Qed.

Lemma run_pool_bound (evs : list event) (st : visualizer) :
  (List.length (particles st) <= 102)%nat ->
  (List.length (particles (run st evs)) <= 102)%nat.
Proof.
  revert st. induction evs as [|e evs IH]; intros st H; [exact H|].
  rewrite run_cons. apply IH, handle_pool_bound, H.
Qed.

(** A segment decomposition of the pool is carried along by particle-field
    ticks: the newly created particles join the last segment. *)
Lemma pool_segments (frames : list tick_input) (st : visualizer)
    (A T B : list particle) :
  visualMode st = "particles"%string ->
  particles st = A ++ T ++ B ->
  particles (run st (map tick frames))
  = iterate (survivors (canvas_height st)) (List.length frames) A
    ++ iterate (survivors (canvas_height st)) (List.length frames) T
    ++ tail_evolution Math_cos Math_sin st frames B.
Proof.
  revert st A T B.
  induction frames as [|inp frames IH]; intros st A T B M HP; [exact HP|].
  cbn [map List.length tail_evolution]. rewrite run_cons. cbn [handle].
  destruct (animate_keeps_surface Math_cos Math_sin st inp) as [KH KM].
  rewrite (IH _ (survivors (canvas_height st) A)
                (survivors (canvas_height st) T)
                (survivors (canvas_height st) (B ++ born st inp))).
  - rewrite KH, !iterate_S_r. reflexivity.
  - rewrite KM. exact M.
  - rewrite animate_particles_pool by exact M.
    rewrite entering_born, HP, <- !app_assoc, !survivors_app. reflexivity.
Qed.

End Pool.

(** C2 (as amended).  Starting from an empty pool, the pool never holds more
    than 102 particles after any sequence of particle-field ticks: the size
    test [length < 100] guards the whole burst of up to three creations. *)
Theorem pool_at_most_102 (Math_cos Math_sin : float -> float)
    (st : visualizer) (frames : list tick_input) :
  visualMode st = "particles"%string -> particles st = [] ->
  (List.length (particles (run Math_cos Math_sin st (map tick frames))) <= 102)%nat.
Proof.
  intros _ HP. apply run_pool_bound. rewrite HP. cbn. lia.
Qed.

Lemma pool_at_most_102_witness :
  (List.length (particles (run flat_trig flat_trig (fresh "particles" "fire")
                             (map tick (repeat loud_frame 34)))) <= 102)%nat.
Proof.
  apply (pool_at_most_102 flat_trig flat_trig (fresh "particles" "fire")
           (repeat loud_frame 34)); reflexivity.
Defined.

(** Thirty-three loud ticks bring the pool to 99; the next one adds three. *)
Lemma pool_reaches_102 :
  List.length (particles (run flat_trig flat_trig (fresh "particles" "fire")
                            (map tick (repeat loud_frame 34)))) = 102%nat.
Proof. vm_compute. reflexivity. Qed.

Lemma pool_at_most_100_fails : ~ pool_at_most_100.
Proof.
  intros H.
  specialize (H flat_trig flat_trig (fresh "particles" "fire")
                (repeat loud_frame 34) eq_refl eq_refl).
  rewrite pool_reaches_102 in H. lia.
Qed.

(** C5.  In a particle-field tick every particle that leaves the update loop
    is the moved image of one that entered it, with a life smaller by 0.01.
    A particle that enters the update loop with life 1.0 and never falls
    below the surface keeps its slot in the pool for 99 ticks and is removed
    by the 100th; here [n] counts the ticks from the one it entered. *)
Theorem particle_lifetime (Math_cos Math_sin : float -> float)
    (st : visualizer) (inp : tick_input) (frames : list tick_input)
    (pre post : list particle) (p : particle) :
  visualMode st = "particles"%string ->
  entering st inp = pre ++ p :: post ->
  p_life p = 1 ->
  (forall k, (1 <= k < 100)%nat ->
             (canvas_height st <? p_y (iterate move k p)) = false) ->
  (forall q', In q' (particles (fst (animate Math_cos Math_sin st inp))) ->
     exists q, In q (entering st inp) /\ q' = move q /\
               p_life q' = p_life q - 0.01) /\
  particles (run Math_cos Math_sin st (map tick (inp :: frames)))
  = iterate (survivors (canvas_height st)) (S (List.length frames)) pre
    ++ (if (S (List.length frames) <? 100)%nat
        then [iterate move (S (List.length frames)) p] else [])
    ++ tail_evolution Math_cos Math_sin
         (fst (animate Math_cos Math_sin st inp)) frames
         (survivors (canvas_height st) post).
Proof.
  intros M HE HL HY. split.
  - intros q' Hq. rewrite animate_particles_pool in Hq by exact M.
    unfold survivors in Hq. apply filter_In in Hq. destruct Hq as [Hq _].
    apply in_map_iff in Hq. destruct Hq as [q [E Hq]].
    exists q. subst q'. split; [exact Hq|]. split; reflexivity.
  - cbn [map]. rewrite run_cons. cbn [handle].
    destruct (animate_keeps_surface Math_cos Math_sin st inp) as [KH KM].
    rewrite (pool_segments Math_cos Math_sin frames _
               (survivors (canvas_height st) pre)
               (survivors (canvas_height st) [p])
               (survivors (canvas_height st) post)).
    + rewrite KH, <- !iterate_S_r.
      rewrite (lifetime_slot (canvas_height st) p HL HY). reflexivity.
    + rewrite KM. exact M.
    + rewrite animate_particles_pool by exact M.
      rewrite HE, <- !survivors_app. reflexivity.
Qed.

Lemma first_spark_on_surface (k : nat) :
  (1 <= k < 100)%nat ->
  (canvas_height (fresh "particles" "fire") <? p_y (iterate move k first_spark))
  = false.
Proof.
  intros Hk.
  apply (forallb_seq
           (fun k => negb (canvas_height (fresh "particles" "fire")
                           <? p_y (iterate move k first_spark))) 1 99) in Hk;
    [|vm_compute; reflexivity].
  apply negb_true_iff in Hk. exact Hk.
Qed.

Lemma particle_lifetime_witness :
  entering (fresh "particles" "fire") loud_frame = [] ++ first_spark :: later_sparks /\
  p_life first_spark = 1 /\
  particles (run flat_trig flat_trig (fresh "particles" "fire")
               (map tick (loud_frame :: repeat loud_frame 99)))
  = iterate (survivors 400) 100 []
    ++ []
    ++ tail_evolution flat_trig flat_trig
         (fst (animate flat_trig flat_trig (fresh "particles" "fire") loud_frame))
         (repeat loud_frame 99)
         (survivors 400 later_sparks).
Proof.
  assert (E : entering (fresh "particles" "fire") loud_frame
              = [] ++ first_spark :: later_sparks) by (vm_compute; reflexivity).
  split; [exact E|]. split; [reflexivity|].
  exact (proj2 (particle_lifetime flat_trig flat_trig (fresh "particles" "fire")
                  loud_frame (repeat loud_frame 99) [] later_sparks first_spark
                  eq_refl E eq_refl first_spark_on_surface)).
Defined.

(** C6.  After the 'change' listener of the mode selector has run, the pool
    that the next particle-field tick finds is empty, whatever events come
    in between. *)
Theorem mode_switch_clears_pool (Math_cos Math_sin : float -> float)
    (st : visualizer) (m : string) (evs : list event) (pool : list particle) :
  next_particle_tick_pool Math_cos Math_sin
    (fst (handle Math_cos Math_sin st (mode_change m))) evs = Some pool ->
  pool = [].
Proof.
  cbn [handle fst].
  assert (G : forall evs s, particles s = [] ->
              next_particle_tick_pool Math_cos Math_sin s evs = Some pool ->
              pool = []).
  { clear. induction evs as [|e evs IH]; intros s HP H; [discriminate H|].
    cbn [next_particle_tick_pool] in H.
    destruct e as [inp|m'|c|w].
    - destruct (String.eqb_spec (visualMode s) "particles") as [P|P].
      + injection H as <-. exact HP.
      + apply (IH _ (eq_trans (animate_other_pool _ _ s inp P) HP) H).
    - refine (IH _ _ H). reflexivity.
    - refine (IH _ _ H). exact HP.
    - refine (IH _ _ H). exact HP. }
  apply G. reflexivity.
Qed.

Lemma mode_switch_clears_pool_witness :
  next_particle_tick_pool flat_trig flat_trig
    (fst (handle flat_trig flat_trig
            (run flat_trig flat_trig (fresh "particles" "fire")
                 (map tick (repeat loud_frame 5)))
            (mode_change "bars")))
    [tick silent_frame; resize 800; mode_change "particles"; tick loud_frame]
  = Some [] /\
  particles (run flat_trig flat_trig (fresh "particles" "fire")
               (map tick (repeat loud_frame 5))) <> [].
Proof.
  split; [|vm_compute; discriminate].
  assert (E : exists pool,
             next_particle_tick_pool flat_trig flat_trig
               (fst (handle flat_trig flat_trig
                       (run flat_trig flat_trig (fresh "particles" "fire")
                            (map tick (repeat loud_frame 5)))
                       (mode_change "bars")))
               [tick silent_frame; resize 800; mode_change "particles"; tick loud_frame]
             = Some pool) by (eexists; vm_compute; reflexivity).
  destruct E as [pool E]. rewrite E.
  rewrite (mode_switch_clears_pool _ _ _ _ _ _ E). reflexivity.
Defined.

(** C10.  A tick in mode bars, circular or waveform leaves the pool as it
    was; and an event that changes the pool is either a mode change or a tick
    of the particle field: only [drawParticles] and the reset in the 'change'
    listener write the pool. *)
Theorem pool_untouched_outside_particles (Math_cos Math_sin : float -> float)
    (st : visualizer) (inp : tick_input) :
  In (visualMode st) ["bars"; "circular"; "waveform"]%string ->
  particles (fst (animate Math_cos Math_sin st inp)) = particles st /\
  (forall (s : visualizer) (e : event),
     particles (fst (handle Math_cos Math_sin s e)) <> particles s ->
     (exists m, e = mode_change m) \/
     (exists i, e = tick i /\ visualMode s = "particles"%string)).
Proof.
  intros H. split.
  - apply animate_other_pool. intros P. rewrite P in H. cbn [In] in H.
    destruct H as [H|[H|[H|H]]]; try discriminate H. exact H.
  - intros s e D. destruct e as [i|m|c|w].
    + right. exists i. split; [reflexivity|].
      destruct (String.eqb_spec (visualMode s) "particles") as [P|P]; [exact P|].
      exfalso. apply D. cbn [handle]. apply animate_other_pool. exact P.
    + left. exists m. reflexivity.
    + exfalso. apply D. reflexivity.
    + exfalso. apply D. reflexivity.
Qed.

Lemma pool_untouched_outside_particles_witness :
  In (visualMode after_loud_bars) ["bars"; "circular"; "waveform"]%string /\
  particles (fst (animate flat_trig flat_trig after_loud_bars loud_frame))
  = particles after_loud_bars.
Proof.
  assert (M : In (visualMode after_loud_bars) ["bars"; "circular"; "waveform"]%string).
  { right. right. left. vm_compute. reflexivity. }
  split; [exact M|].
  exact (proj1 (pool_untouched_outside_particles flat_trig flat_trig
                  after_loud_bars loud_frame M)).
Defined.

(** ** The reducer in double precision *)

Lemma double_index (M : Z) (i : nat) :
  In M analyser_lengths -> (i < 128)%nat ->
  key_of (Math_floor ((of_Z (Z.of_nat i) / of_Z sampleSize) * (of_Z M / 2)))
  = Some (Z.of_nat i * M / 256)%Z.
Proof.
  intros HM Hi.
  assert (C : forallb
                (fun M =>
                   forallb
                     (fun i =>
                        match key_of (Math_floor ((of_Z (Z.of_nat i) / of_Z sampleSize)
                                                  * (of_Z M / 2))) with
                        | Some k => (k =? Z.of_nat i * M / 256)%Z
                        | None => false
                        end) (seq 0 128))
                analyser_lengths = true) by (vm_compute; reflexivity).
  rewrite forallb_forall in C. specialize (C M HM).
  apply (forallb_seq _ 0 128 i) in C; [|lia]. cbv beta in C.
  destruct (key_of _) as [k|]; [|discriminate C].
  apply Z.eqb_eq in C. rewrite C. reflexivity.
Qed.

Lemma double_byte (v : Z) :
  is_uint8 v ->
  to_uint8_double (Math_min 255 (of_Z v * 1.5))
  = to_uint8 (min255 (Some (inject_Z v * amplification)%Q)).
Proof.
  intros Hv.
  assert (C : forallb
                (fun n => (to_uint8_double (Math_min 255 (of_Z (Z.of_nat n) * 1.5))
                           =? to_uint8 (min255 (Some (inject_Z (Z.of_nat n)
                                                      * amplification)%Q)))%Z)
                (seq 0 256) = true) by (vm_compute; reflexivity).
  apply (forallb_seq _ 0 256 (Z.to_nat v)) in C; [|unfold is_uint8 in Hv; lia].
  cbv beta in C. rewrite Z2Nat.id in C by (unfold is_uint8 in Hv; lia).
  apply Z.eqb_eq in C. exact C.
Qed.

(** For every frame length an analyser can have, the double-precision
    computation of the source and the exact one produce the same array. *)
Lemma getVisualData_double_agrees (st : visualizer) :
  frame_ok st -> In (bufferLength st) analyser_lengths ->
  getVisualData_double st = snd (getVisualData st).
Proof.
  intros [HL HB] HM. unfold getVisualData_double, getVisualData, visualData_of.
  cbn [snd]. apply map_ext_in. intros i Hi. apply in_seq in Hi.
  change (Z.to_nat sampleSize) with 128%nat in Hi.
  unfold float_get. rewrite (double_index _ _ HM) by lia.
  unfold amplified. rewrite <- binIndex_div.
  assert (P : (1 <= bufferLength st)%Z).
  { unfold analyser_lengths in HM. cbn [In] in HM.
    repeat (destruct HM as [HM|HM]; [lia|]). contradiction. }
  destruct (typed_get_Some (dataArray st) (binIndex st (Z.of_nat i))) as [v [Hv Hin]].
  { rewrite <- HL. apply binIndex_in_range; lia. }
  rewrite Hv. cbn [to_number option_map].
  apply double_byte. rewrite Forall_forall in HB. auto.
Qed.

(** * Further properties *)

(** ** Visual Sample Reducer *)

Local Open Scope Z_scope.

Lemma to_uint8_range (x : qnum) : is_uint8 (to_uint8 x).
Proof.
  unfold is_uint8, to_uint8. destruct x as [q|]; [|lia].
  pose proof (Z.mod_pos_bound (Qtruncate q) 256). lia.
Qed.

(** X1.  [getVisualData] raises exactly when the object has no frame: then
    it throws a [TypeError], whatever [bufferLength] is.  With a frame it
    returns: 128 zeros when [bufferLength] is [undefined] (every index is
    [NaN]), and otherwise 128 bytes, for any frame length and any
    [bufferLength], consistent with the frame or not. *)
Theorem getVisualData_raises_iff_no_frame (au : audio_fields) :
  match maybe_dataArray au, maybe_bufferLength au with
  | None, _ => getVisualData_checked au = TypeError
  | Some _, None => getVisualData_checked au = returned (repeat 0 128)
  | Some _, Some _ =>
      exists out,
        getVisualData_checked au = returned out /\
        List.length out = 128%nat /\
        Forall is_uint8 out
  end.
Proof.
  destruct au as [[M|] [d|]]; cbn [maybe_dataArray maybe_bufferLength].
  - apply (reduce_from_frame (Some M) d (seq 0 128)).
  - apply getVisualData_checked_no_frame.
  - unfold getVisualData_checked.
    rewrite (reduce_from_zeros (mkAudio None (Some d)) d _ eq_refl);
      reflexivity.
  - apply getVisualData_checked_no_frame.
Qed.

(** X2.  On a well-formed frame, element [i] is [min(255, 3v/2)] rounded
    down, [v] being the sample read: it is never below the sample, and it is
    255 exactly when the sample is at least 170. *)
Theorem reducer_saturates_from_170 (st : visualizer) (i : Z) :
  frame_ok st -> 1 <= bufferLength st -> 0 <= i < 128 ->
  exists v out : Z,
    typed_get (dataArray st) (i * bufferLength st / 256) = Some v /\
    typed_get (snd (getVisualData st)) i = Some out /\
    v <= out /\ (out = 255 <-> 170 <= v).
Proof.
  intros [HL HB] HM Hi. rewrite <- binIndex_div.
  destruct (typed_get_Some (dataArray st) (binIndex st i)) as [v [Hv Hin]].
  { rewrite <- HL. apply binIndex_in_range; lia. }
  assert (Bv : is_uint8 v) by (rewrite Forall_forall in HB; auto).
  exists v, (Z.min 255 (3 * v / 2)). split; [exact Hv|]. split.
  - rewrite visualData_elem by exact Hi. unfold amplified. rewrite Hv.
    cbn [option_map]. rewrite stored_byte by exact Bv. reflexivity.
  - unfold is_uint8 in Bv.
    assert (D : 2 * (3 * v / 2) <= 3 * v < 2 * (3 * v / 2) + 2).
    { pose proof (Z.div_mod (3 * v) 2 ltac:(lia)).
      pose proof (Z.mod_pos_bound (3 * v) 2 ltac:(lia)). lia. }
    split; [lia|]. split; lia.
Qed.

Lemma reducer_saturates_from_170_witness :
  exists v out : Z,
    typed_get (dataArray all_loud) (5 * bufferLength all_loud / 256) = Some v /\
    typed_get (snd (getVisualData all_loud)) 5 = Some out /\
    v <= out /\ (out = 255 <-> 170 <= v).
Proof.
  apply (reducer_saturates_from_170 all_loud 5).
  - split; [reflexivity|]. apply Forall_forall. intros b Hb.
    apply repeat_spec in Hb. subst b. unfold is_uint8. lia.
  - cbn. lia.
  - lia.
Defined.

Lemma visualData_ext (st st' : visualizer) :
  bufferLength st' = bufferLength st ->
  (forall i, 0 <= i < 128 ->
     typed_get (dataArray st') (i * bufferLength st / 256)
     = typed_get (dataArray st) (i * bufferLength st / 256)) ->
  snd (getVisualData st') = snd (getVisualData st).
Proof.
  intros HM HA. unfold getVisualData, visualData_of. cbn [snd].
  apply map_ext_in. intros n Hn. apply in_seq in Hn.
  change (Z.to_nat sampleSize) with 128%nat in Hn.
  unfold amplified. rewrite !binIndex_div, HM, HA by lia. reflexivity.
Qed.

(** X3.  Each output element is computed from a single sample, the one at
    [floor(i * M / 256)]: two objects with the same [bufferLength] whose
    frames agree at these 128 positions are reduced to the same array.
    Nothing is averaged over the bins in between. *)
Theorem reducer_reads_128_bins (st st' : visualizer) :
  bufferLength st' = bufferLength st ->
  (forall i, 0 <= i < 128 ->
     typed_get (dataArray st') (i * bufferLength st / 256)
     = typed_get (dataArray st) (i * bufferLength st / 256)) ->
  snd (getVisualData st') = snd (getVisualData st).
Proof. intros HM HA. apply visualData_ext; assumption. Qed.

Lemma agree_on_lower_half (d d' : list Z) (M : Z) :
  1 <= M ->
  (forall k, 0 <= 2 * k < M -> typed_get d' k = typed_get d k) ->
  forall i, 0 <= i < 128 ->
    typed_get d' (i * M / 256) = typed_get d (i * M / 256).
Proof.
  intros HM HA i Hi. apply HA.
  pose proof (Z.div_mod (i * M) 256 ltac:(lia)).
  pose proof (Z.mod_pos_bound (i * M) 256 ltac:(lia)).
  split; [apply Z.mul_nonneg_nonneg; [lia|apply Z.div_pos; nia]|nia].
Qed.

(** X4.  Only the lower half of the frame is read: two frames of the same
    length that agree on the indices [k] with [2k < M] give the same visual
    array, whatever their upper halves hold. *)
Theorem reducer_ignores_upper_half (st st' : visualizer) :
  bufferLength st' = bufferLength st -> 1 <= bufferLength st ->
  (forall k, 0 <= 2 * k < bufferLength st ->
     typed_get (dataArray st') k = typed_get (dataArray st) k) ->
  snd (getVisualData st') = snd (getVisualData st).
Proof.
  intros HM H1 HA. apply visualData_ext; [exact HM|].
  apply agree_on_lower_half; assumption.
Qed.

Lemma typed_get_app_left (a b : list Z) (k : Z) :
  k < Z.of_nat (List.length a) -> typed_get (a ++ b) k = typed_get a k.
Proof.
  intros H. unfold typed_get. destruct (Z.ltb_spec k 0); [reflexivity|].
  apply nth_error_app1. lia.
Qed.

Lemma reducer_reads_128_bins_witness :
  snd (getVisualData half_loud) = snd (getVisualData all_loud).
Proof.
  apply (reducer_reads_128_bins all_loud half_loud); [reflexivity|].
  intros i Hi.
  change (dataArray half_loud) with (repeat 200 512 ++ repeat 0 512).
  change (dataArray all_loud) with (repeat 200 512 ++ repeat 200 512).
  change (bufferLength all_loud) with 1024.
  assert (i * 1024 / 256 < 512) by (apply Z.div_lt_upper_bound; lia).
  rewrite !typed_get_app_left by (rewrite repeat_length; lia). reflexivity.
Defined.

Lemma reducer_ignores_upper_half_witness :
  snd (getVisualData half_loud) = snd (getVisualData all_loud).
Proof.
  apply (reducer_ignores_upper_half all_loud half_loud);
    [reflexivity | cbn; lia |].
  intros k Hk.
  change (dataArray half_loud) with (repeat 200 512 ++ repeat 0 512).
  change (dataArray all_loud) with (repeat 200 512 ++ repeat 200 512).
  change (bufferLength all_loud) with 1024 in Hk.
  rewrite !typed_get_app_left by (rewrite repeat_length; lia). reflexivity.
Defined.

(** ** Frame scheduler *)

Lemma fill_from_length (old src : list Z) :
  List.length (fill_from old src) = List.length old.
Proof.
  unfold fill_from. rewrite length_app, length_firstn, length_skipn. lia.
Qed.

Lemma fill_from_full (old src : list Z) :
  List.length src = List.length old -> fill_from old src = src.
Proof.
  intros H. unfold fill_from.
  rewrite <- H, firstn_all, skipn_all2 by lia. apply app_nil_r.
Qed.

Lemma fill_from_bytes (old src : list Z) :
  Forall is_uint8 old -> Forall is_uint8 src -> Forall is_uint8 (fill_from old src).
Proof.
  intros Ho Hs. unfold fill_from. apply Forall_app. split.
  - rewrite <- (firstn_skipn (List.length old) src) in Hs.
    apply Forall_app in Hs. exact (proj1 Hs).
  - rewrite <- (firstn_skipn (List.length src) old) in Ho.
    apply Forall_app in Ho. exact (proj2 Ho).
Qed.

Section Ticks.

Variables Math_cos Math_sin : float -> float.

Notation animate := (animate Math_cos Math_sin).
Notation handle := (handle Math_cos Math_sin).
Notation run := (run Math_cos Math_sin).

Ltac by_mode st :=
  destruct (String.eqb_spec (visualMode st) "waveform");
  destruct (String.eqb_spec (visualMode st) "bars");
  destruct (String.eqb_spec (visualMode st) "circular");
  destruct (String.eqb_spec (visualMode st) "particles");
  try reflexivity; try congruence.

Lemma animate_dataArray (st : visualizer) (inp : tick_input) :
  dataArray (fst (animate st inp))
  = fill_from (dataArray st) (domain_read st inp).
Proof. unfold animate, domain_read. by_mode st. Qed.

Lemma animate_static (st : visualizer) (inp : tick_input) :
  canvas_height (fst (animate st inp)) = canvas_height st /\
  canvas_width (fst (animate st inp)) = canvas_width st /\
  bufferLength (fst (animate st inp)) = bufferLength st /\
  colorScheme (fst (animate st inp)) = colorScheme st.
Proof. unfold animate. by_mode st; repeat split; reflexivity. Qed.

Lemma handle_shape (st : visualizer) (e : event) :
  canvas_height (fst (handle st e)) = canvas_height st /\
  bufferLength (fst (handle st e)) = bufferLength st /\
  List.length (dataArray (fst (handle st e))) = List.length (dataArray st).
Proof.
  destruct e as [inp|m|s|w]; cbn [handle fst]; try (repeat split; reflexivity).
  destruct (animate_static st inp) as [H [_ [B _]]].
  rewrite H, B, animate_dataArray, fill_from_length. repeat split; reflexivity.
Qed.

Lemma run_shape (evs : list event) (st : visualizer) :
  canvas_height (run st evs) = canvas_height st /\
  bufferLength (run st evs) = bufferLength st /\
  List.length (dataArray (run st evs)) = List.length (dataArray st).
Proof.
  revert st. induction evs as [|e evs IH]; intros st; [repeat split; reflexivity|].
  rewrite run_cons. destruct (IH (fst (handle st e))) as [H [B L]].
  destruct (handle_shape st e) as [H' [B' L']].
  rewrite H, B, L, H', B', L'. repeat split; reflexivity.
Qed.

Lemma handle_frame_ok (st : visualizer) (e : event) :
  frame_ok st ->
  (forall inp, e = tick inp -> bytes_in inp) ->
  frame_ok (fst (handle st e)).
Proof.
  intros [HL HB] HE. destruct (handle_shape st e) as [_ [B L]].
  split; [rewrite B, L; exact HL|].
  destruct e as [inp|m|s|w]; cbn [handle fst]; try exact HB.
  rewrite animate_dataArray. destruct (HE inp eq_refl) as [HT HF].
  apply fill_from_bytes; [exact HB|].
  unfold domain_read. destruct (String.eqb _ _); assumption.
Qed.

Lemma animate_cache_fresh (st : visualizer) (inp : tick_input) :
  In (visualMode st) ["bars"; "circular"; "particles"]%string ->
  currentVisualData (fst (animate st inp))
  = Some (snd (getVisualData (fst (animate st inp)))).
Proof.
  intros H. cbn [In] in H. unfold animate.
  destruct H as [H|[H|[H|H]]]; [| | |contradiction]; rewrite <- H; reflexivity.
Qed.

Lemma animate_cache_kept (st : visualizer) (inp : tick_input) :
  ~ In (visualMode st) ["bars"; "circular"; "particles"]%string ->
  currentVisualData (fst (animate st inp)) = currentVisualData st.
Proof.
  intros H. cbn [In] in H. unfold animate. by_mode st; exfalso; apply H; auto.
Qed.

Lemma animate_unknown_calls (st : visualizer) (inp : tick_input) :
  ~ In (visualMode st) known_modes ->
  snd (animate st inp)
  = [ set_fillStyle (solid (rgba 26 26 46 0.3));
      fillRect 0 0 (canvas_width st) (canvas_height st);
      set_shadowBlur 0 ]%float.
Proof.
  intros H. unfold known_modes in H. cbn [In] in H. unfold animate.
  by_mode st; exfalso; apply H; auto.
Qed.

End Ticks.

(** X5.  No sequence of events changes the surface height, [bufferLength]
    or the length of the raw frame: the analyser overwrites the frame in
    place. *)
Theorem events_keep_shape (Math_cos Math_sin : float -> float)
    (st : visualizer) (evs : list event) :
  canvas_height (run Math_cos Math_sin st evs) = canvas_height st /\
  bufferLength (run Math_cos Math_sin st evs) = bufferLength st /\
  List.length (dataArray (run Math_cos Math_sin st evs))
  = List.length (dataArray st).
Proof. apply run_shape. Qed.

(** X6.  A tick reads the time-domain data in waveform mode and the
    frequency data in every other mode; when the analyser delivers as many
    samples as the frame holds, the frame is exactly that data afterwards. *)
Theorem tick_reads_domain (Math_cos Math_sin : float -> float)
    (st : visualizer) (inp : tick_input) :
  List.length (timeDomainData inp) = List.length (dataArray st) ->
  List.length (frequencyData inp) = List.length (dataArray st) ->
  dataArray (fst (animate Math_cos Math_sin st inp))
  = if String.eqb (visualMode st) "waveform"
    then timeDomainData inp else frequencyData inp.
Proof.
  intros HT HF. rewrite animate_dataArray. unfold domain_read.
  destruct (String.eqb _ _); apply fill_from_full; assumption.
Qed.

Lemma tick_reads_domain_witness :
  dataArray (fst (animate flat_trig flat_trig (fresh "waveform" "fire") loud_frame))
  = repeat 128%Z 1024 /\
  dataArray (fst (animate flat_trig flat_trig (fresh "circular" "fire") loud_frame))
  = repeat 255%Z 1024.
Proof.
  split.
  - exact (tick_reads_domain flat_trig flat_trig (fresh "waveform" "fire")
             loud_frame eq_refl eq_refl).
  - exact (tick_reads_domain flat_trig flat_trig (fresh "circular" "fire")
             loud_frame eq_refl eq_refl).
Defined.

(** X7.  As long as the analyser writes bytes, the raw frame stays a byte
    array of [bufferLength] elements through any sequence of events. *)
Theorem events_keep_frame_ok (Math_cos Math_sin : float -> float)
    (evs : list event) (st : visualizer) :
  frame_ok st ->
  (forall inp, In (tick inp) evs -> bytes_in inp) ->
  frame_ok (run Math_cos Math_sin st evs).
Proof.
  revert st. induction evs as [|e evs IH]; intros st F H; [exact F|].
  rewrite run_cons. apply IH.
  - apply handle_frame_ok; [exact F|]. intros inp E. apply H. left. exact E.
  - intros inp Hin. apply H. right. exact Hin.
Qed.

Lemma bytes_in_loud : bytes_in loud_frame.
Proof.
  split; apply Forall_forall; intros b Hb; apply repeat_spec in Hb; subst b;
    unfold is_uint8; lia.
Qed.

Lemma events_keep_frame_ok_witness :
  frame_ok (run flat_trig flat_trig (fresh "bars" "fire")
              [tick loud_frame; mode_change "waveform"; tick loud_frame]).
Proof.
  apply events_keep_frame_ok.
  - split; [reflexivity|]. apply Forall_forall. intros b Hb.
    apply repeat_spec in Hb. subst b. unfold is_uint8. lia.
  - intros inp [E|[E|[E|[]]]]; try discriminate E;
      injection E as <-; exact bytes_in_loud.
Defined.

(** X8.  After a tick in mode bars, circular or particles the cached visual
    array is the reduction of the frame the object now holds: in these modes
    the Color Mapper works on the data of the current tick. *)
Theorem tick_refreshes_cache (Math_cos Math_sin : float -> float)
    (st : visualizer) (inp : tick_input) :
  In (visualMode st) ["bars"; "circular"; "particles"]%string ->
  currentVisualData (fst (animate Math_cos Math_sin st inp))
  = Some (snd (getVisualData (fst (animate Math_cos Math_sin st inp)))).
Proof. apply animate_cache_fresh. Qed.

Lemma tick_refreshes_cache_witness :
  currentVisualData (fst (animate flat_trig flat_trig (fresh "circular" "fire") loud_frame))
  = Some (snd (getVisualData
                 (fst (animate flat_trig flat_trig (fresh "circular" "fire") loud_frame)))).
Proof.
  apply (tick_refreshes_cache flat_trig flat_trig (fresh "circular" "fire") loud_frame).
  right. left. reflexivity.
Defined.

(** X9.  A tick in any other mode, waveform included, leaves the cached
    visual array as it was: whatever an earlier tick cached stays in force
    for the Color Mapper. *)
Theorem tick_keeps_cache (Math_cos Math_sin : float -> float)
    (st : visualizer) (inp : tick_input) :
  ~ In (visualMode st) ["bars"; "circular"; "particles"]%string ->
  currentVisualData (fst (animate Math_cos Math_sin st inp))
  = currentVisualData st.
Proof. apply animate_cache_kept. Qed.

Lemma tick_keeps_cache_witness :
  currentVisualData (fst (animate flat_trig flat_trig after_loud_bars silent_frame))
  = currentVisualData after_loud_bars.
Proof.
  apply (tick_keeps_cache flat_trig flat_trig after_loud_bars silent_frame).
  intros [E|[E|[E|[]]]]; vm_compute in E; discriminate E.
Defined.

(** X10.  With a mode that is none of the four names the [switch] matches
    nothing: the tick still refreshes the frame and paints the fading
    overlay, and makes no other call on the context. *)
Theorem unknown_mode_paints_overlay_only (Math_cos Math_sin : float -> float)
    (st : visualizer) (inp : tick_input) :
  ~ In (visualMode st) known_modes ->
  snd (animate Math_cos Math_sin st inp)
  = [ set_fillStyle (solid (rgba 26 26 46 0.3));
      fillRect 0 0 (canvas_width st) (canvas_height st);
      set_shadowBlur 0 ]%float /\
  dataArray (fst (animate Math_cos Math_sin st inp))
  = fill_from (dataArray st) (frequencyData inp).
Proof.
  intros H. split; [apply animate_unknown_calls; exact H|].
  rewrite animate_dataArray. unfold domain_read.
  destruct (String.eqb_spec (visualMode st) "waveform") as [E|E]; [|reflexivity].
  exfalso. apply H. rewrite E. right. right. left. reflexivity.
Qed.

Lemma unknown_mode_paints_overlay_only_witness :
  snd (animate flat_trig flat_trig (fresh "spectrogram" "fire") loud_frame)
  = [ set_fillStyle (solid (rgba 26 26 46 0.3)); fillRect 0 0 1000 400;
      set_shadowBlur 0 ]%float.
Proof.
  refine (proj1 (unknown_mode_paints_overlay_only flat_trig flat_trig
                   (fresh "spectrogram" "fire") loud_frame _)).
  intros [E|[E|[E|[E|[]]]]]; discriminate E.
Defined.

(** ** Particle pool, continued *)

Local Open Scope float_scope.

Lemma update_loop_calls (h : float) (front back : list particle) :
  snd (update_loop h (List.length front) (front ++ back))
  = flat_map paint_particle (rev (survivors h front)).
Proof.
  revert back. induction front as [|p front IH] using rev_ind; intros back.
  - reflexivity.
  - rewrite length_app, Nat.add_comm. cbn [List.length Nat.add update_loop].
    rewrite <- app_assoc. cbn [app].
    rewrite nth_error_middle, survivors_app.
    unfold survivors at 2. cbn [map filter].
    destruct (expired h (move p)); cbn [negb].
    + rewrite splice1_middle, IH, app_nil_r. reflexivity.
    + rewrite store_middle. cbn [snd]. rewrite IH, rev_app_distr. reflexivity.
Qed.

(** X11.  The backwards loop with in-place [splice] visits every particle
    exactly once: the pool it leaves is the moved particles that have not
    expired, in their original order, and the particles painted are these,
    last one first. *)
Theorem update_loop_exact (h : float) (ps : list particle) :
  update_loop h (List.length ps) ps
  = (filter (fun p => negb (expired h p)) (map move ps),
     flat_map paint_particle
       (rev (filter (fun p => negb (expired h p)) (map move ps)))).
Proof.
  rewrite (surjective_pairing (update_loop h (List.length ps) ps)).
  f_equal.
  - apply update_loop_survivors.
  - rewrite <- (app_nil_r ps) at 2. apply update_loop_calls.
Qed.

Lemma Forall_fill_from (P : Z -> Prop) (old src : list Z) :
  Forall P old -> Forall P src -> Forall P (fill_from old src).
Proof.
  intros Ho Hs. unfold fill_from. apply Forall_app. split.
  - rewrite <- (firstn_skipn (List.length old) src) in Hs.
    apply Forall_app in Hs. exact (proj1 Hs).
  - rewrite <- (firstn_skipn (List.length src) old) in Ho.
    apply Forall_app in Ho. exact (proj2 Ho).
Qed.

Lemma quiet_visualData (st : visualizer) :
  quiet (dataArray st) ->
  Forall (fun e => (e <= 79)%Z) (snd (getVisualData st)).
Proof.
  intros Q. unfold getVisualData, visualData_of. cbn [snd].
  apply Forall_forall. intros e He. apply in_map_iff in He.
  destruct He as [i [<- _]]. unfold amplified, typed_get.
  destruct (binIndex st (Z.of_nat i) <? 0)%Z; [cbn; lia|].
  destruct (nth_error (dataArray st) _) as [v|] eqn:N; [|cbn; lia].
  unfold quiet in Q. rewrite Forall_forall in Q.
  pose proof (Q v (nth_error_In _ _ N)) as Bv. cbn [option_map].
  rewrite stored_byte by (unfold is_uint8; lia).
  assert (3 * v / 2 < 80)%Z by (apply Z.div_lt_upper_bound; lia). lia.
Qed.

Lemma float_get_In (a : list Z) (f : float) (v : Z) :
  float_get a f = Some v -> In v a.
Proof.
  unfold float_get, typed_get. destruct (key_of f) as [k|]; [|discriminate].
  destruct (k <? 0)%Z; [discriminate|]. apply nth_error_In.
Qed.

Lemma spawn_one_below_threshold (st : visualizer) (vd : list Z)
    (rnd : nat -> float) (acc : nat * list particle) :
  Forall (fun e => (e <= 80)%Z) vd ->
  snd (spawn_one st vd rnd acc) = snd acc.
Proof.
  intros Q. unfold spawn_one.
  destruct (float_get vd _) as [v|] eqn:G; [|reflexivity].
  apply float_get_In in G. rewrite Forall_forall in Q. apply Q in G.
  destruct (Z.ltb_spec 80 v); [lia|reflexivity].
Qed.

Lemma spawn_below_threshold (st : visualizer) (vd : list Z) (rnd : nat -> float) :
  Forall (fun e => (e <= 80)%Z) vd -> spawn st vd rnd = particles st.
Proof.
  intros Q. unfold spawn. destruct (_ <? 100)%nat; [|reflexivity].
  cbn [seq fold_left]. rewrite !spawn_one_below_threshold by exact Q.
  reflexivity.
Qed.

Lemma entering_quiet (st : visualizer) (inp : tick_input) :
  quiet (frequencyData inp) ->
  List.length (frequencyData inp) = List.length (dataArray st) ->
  entering st inp = particles st.
Proof.
  intros Q L. unfold entering. rewrite fill_from_full by exact L.
  rewrite spawn_below_threshold; [reflexivity|].
  eapply Forall_impl; [|apply quiet_visualData; exact Q].
  cbn. intros e He. lia.
Qed.

Lemma entering_full (st : visualizer) (inp : tick_input) :
  (100 <= List.length (particles st))%nat -> entering st inp = particles st.
Proof.
  intros H. destruct (entering_grows st inp) as [e [E [_ Z]]].
  rewrite E, (Z H). apply app_nil_r.
Qed.

(** X12.  When the pool already holds 100 particles or more, a
    particle-field tick creates none: the pool after the tick is the moved,
    unexpired particles of the pool before it, and cannot be larger. *)
Theorem full_pool_creates_nothing (Math_cos Math_sin : float -> float)
    (st : visualizer) (inp : tick_input) :
  visualMode st = "particles"%string ->
  (100 <= List.length (particles st))%nat ->
  particles (fst (animate Math_cos Math_sin st inp))
  = survivors (canvas_height st) (particles st) /\
  (List.length (particles (fst (animate Math_cos Math_sin st inp)))
   <= List.length (particles st))%nat.
Proof.
  intros M H. rewrite animate_particles_pool by exact M.
  rewrite entering_full by exact H. split; [reflexivity|].
  apply survivors_length.
Qed.

(** X13.  A particle is created only for a visual sample above 80, that is
    for a raw sample of at least 54: on a frame whose samples are all at
    most 53 a particle-field tick creates no particle, whatever
    [Math.random()] returns. *)
Theorem quiet_frame_creates_nothing (Math_cos Math_sin : float -> float)
    (st : visualizer) (inp : tick_input) :
  visualMode st = "particles"%string ->
  quiet (frequencyData inp) ->
  List.length (frequencyData inp) = List.length (dataArray st) ->
  particles (fst (animate Math_cos Math_sin st inp))
  = survivors (canvas_height st) (particles st).
Proof.
  intros M Q L. rewrite animate_particles_pool by exact M.
  rewrite entering_quiet by assumption. reflexivity.
Qed.

Lemma quiet_frame_is_quiet : quiet (frequencyData quiet_frame).
Proof.
  apply Forall_forall. intros b Hb. apply repeat_spec in Hb. subst b. lia.
Qed.

Lemma quiet_frame_creates_nothing_witness :
  particles (fst (animate flat_trig flat_trig (fresh "particles" "fire") quiet_frame))
  = survivors 400 [].
Proof.
  exact (quiet_frame_creates_nothing flat_trig flat_trig (fresh "particles" "fire")
           quiet_frame eq_refl quiet_frame_is_quiet eq_refl).
Defined.

(** A sample of 54 is enough: the same tick on a spectrum at 54 creates
    three particles. *)
Lemma threshold_is_54 :
  List.length (entering (fresh "particles" "fire")
                 (mkTick (repeat 128%Z 1024) (repeat 54%Z 1024) dice)) = 3%nat.
Proof. vm_compute. reflexivity. Qed.

Lemma full_pool_creates_nothing_witness :
  visualMode crowded = "particles"%string /\
  (100 <= List.length (particles crowded))%nat /\
  (List.length (particles (fst (animate flat_trig flat_trig crowded loud_frame)))
   <= List.length (particles crowded))%nat.
Proof.
  assert (M : visualMode crowded = "particles"%string) by (vm_compute; reflexivity).
  assert (H : (100 <= List.length (particles crowded))%nat).
  { change crowded with (run flat_trig flat_trig (fresh "particles" "fire")
                           (map tick (repeat loud_frame 34))).
    rewrite pool_reaches_102. lia. }
  split; [exact M|]. split; [exact H|].
  exact (proj2 (full_pool_creates_nothing flat_trig flat_trig crowded loud_frame M H)).
Defined.

Lemma spawn_one_fresh (st : visualizer) (vd : list Z) (rnd : nat -> float)
    (acc : nat * list particle) :
  exists e, snd (spawn_one st vd rnd acc) = snd acc ++ e /\
            Forall (fun p => p_life p = 1 /\ p_y p = canvas_height st) e.
Proof.
  unfold spawn_one.
  destruct (float_get vd _) as [v|]; [destruct (80 <? v)%Z|]; cbn [snd].
  - eexists. split; [reflexivity|]. constructor; [split; reflexivity|constructor].
  - exists []. rewrite app_nil_r. split; [reflexivity|constructor].
  - exists []. rewrite app_nil_r. split; [reflexivity|constructor].
Qed.

(** Every particle the spawn step creates starts with life 1.0 at the
    bottom edge of the surface. *)
Lemma spawn_fresh (st : visualizer) (vd : list Z) (rnd : nat -> float) :
  exists e, spawn st vd rnd = particles st ++ e /\
            Forall (fun p => p_life p = 1 /\ p_y p = canvas_height st) e.
Proof.
  unfold spawn. destruct (_ <? 100)%nat.
  - cbn [seq fold_left].
    set (a0 := (O, particles st)).
    destruct (spawn_one_fresh st vd rnd a0) as [e1 [E1 F1]].
    set (a1 := spawn_one st vd rnd a0) in *.
    destruct (spawn_one_fresh st vd rnd a1) as [e2 [E2 F2]].
    set (a2 := spawn_one st vd rnd a1) in *.
    destruct (spawn_one_fresh st vd rnd a2) as [e3 [E3 F3]].
    exists (e1 ++ e2 ++ e3). rewrite E3, E2, E1. subst a0. cbn [snd].
    rewrite <- !app_assoc. split; [reflexivity|].
    apply Forall_app; split; [exact F1|]. apply Forall_app; split; assumption.
  - exists []. rewrite app_nil_r. split; [reflexivity|constructor].
Qed.

Lemma entering_fresh (st : visualizer) (inp : tick_input) :
  exists e, entering st inp = particles st ++ e /\
            Forall (fun p => p_life p = 1 /\ p_y p = canvas_height st) e.
Proof.
  unfold entering.
  exact (spawn_fresh (fst (getVisualData
           (set_dataArray st (fill_from (dataArray st) (frequencyData inp)))))
           _ (random inp)).
Qed.

Lemma aged_weaken (a b : nat) (p : particle) :
  (a <= b)%nat -> aged b p -> aged a p.
Proof. intros H [k [Hk E]]. exists k. split; [lia|exact E]. Qed.

(** One pass of the update loop makes every survivor one pass older; a
    particle on its 100th pass has no life left and is not among them. *)
Lemma survivors_aged (h : float) (a : nat) (ps : list particle) :
  Forall (aged a) ps ->
  Forall (fun q => aged (S a) q /\ expired h q = false) (survivors h ps).
Proof.
  intros H. apply Forall_forall. intros q Hq.
  unfold survivors in Hq. apply filter_In in Hq. destruct Hq as [Hq NE].
  apply negb_true_iff in NE. split; [|exact NE].
  apply in_map_iff in Hq. destruct Hq as [p [<- Hp]].
  rewrite Forall_forall in H. destruct (H p Hp) as [k [Hk E]].
  exists (S k). split.
  - destruct (Nat.eq_dec k 99) as [K|K]; [|lia]. exfalso.
    unfold expired in NE. apply orb_false_iff in NE. destruct NE as [NL _].
    cbn [move p_life] in NL. rewrite E, K in NL.
    change (life_after 99 - 0.01) with (iterate (fun l => l - 0.01) 100 1) in NL.
    rewrite life_spent_at_100 in NL. discriminate NL.
  - cbn [move p_life]. rewrite E. reflexivity.
Qed.

(** The life of a particle in the pool is strictly between 0 and 1. *)
Lemma aged_opacity (p : particle) :
  aged 1 p -> (0 <? p_life p) = true /\ (p_life p <? 1) = true.
Proof.
  intros [k [Hk E]]. rewrite E.
  assert (C : forallb (fun k => (0 <? life_after k) && (life_after k <? 1))
                      (seq 1 99) = true) by (vm_compute; reflexivity).
  apply (forallb_seq _ 1 99 k) in C; [|lia]. cbv beta in C.
  apply andb_true_iff in C. exact C.
Qed.

Section PoolInvariant.

Variables Math_cos Math_sin : float -> float.

Notation animate := (animate Math_cos Math_sin).
Notation handle := (handle Math_cos Math_sin).
Notation run := (run Math_cos Math_sin).

Lemma handle_pool_ok (st : visualizer) (e : event) :
  pool_ok st -> pool_ok (fst (handle st e)).
Proof.
  intros H. unfold pool_ok.
  destruct (handle_shape Math_cos Math_sin st e) as [HH _]. rewrite HH.
  destruct e as [inp|m|s|w]; cbn [handle fst]; try exact H; [|constructor].
  destruct (String.eqb_spec (visualMode st) "particles") as [P|P].
  - rewrite animate_particles_pool by exact P.
    apply survivors_aged.
    destruct (entering_fresh st inp) as [born [E F]]. rewrite E.
    apply Forall_app. split.
    + eapply Forall_impl; [|exact H]. cbn. intros p [A _].
      apply (aged_weaken 0 1); [lia|exact A].
    + eapply Forall_impl; [|exact F]. cbn. intros p [L _].
      exists 0%nat. split; [lia|exact L].
  - rewrite animate_other_pool by exact P. exact H.
Qed.

Lemma run_pool_ok (evs : list event) (st : visualizer) :
  pool_ok st -> pool_ok (run st evs).
Proof.
  revert st. induction evs as [|e evs IH]; intros st H; [exact H|].
  rewrite run_cons. apply IH, handle_pool_ok, H.
Qed.

End PoolInvariant.

(** X14.  Starting from an empty pool, after any sequence of events every
    particle in the pool has a life strictly between 0 and 1 (one of the 99
    values [1 - 0.01 - ... - 0.01]) and is not below the bottom edge: the
    opacity given to [globalAlpha] is always a proper one. *)
Theorem pool_particles_alive (Math_cos Math_sin : float -> float)
    (st : visualizer) (evs : list event) (p : particle) :
  particles st = [] ->
  In p (particles (run Math_cos Math_sin st evs)) ->
  (exists k : nat, (1 <= k <= 99)%nat /\ p_life p = life_after k) /\
  (0 <? p_life p) = true /\ (p_life p <? 1) = true /\
  (canvas_height st <? p_y p) = false.
Proof.
  intros HE Hp.
  assert (I : pool_ok (run Math_cos Math_sin st evs)).
  { apply run_pool_ok. unfold pool_ok. rewrite HE. constructor. }
  unfold pool_ok in I. rewrite Forall_forall in I.
  destruct (I p Hp) as [A X]. split; [exact A|].
  destruct (aged_opacity p A) as [L0 L1]. split; [exact L0|]. split; [exact L1|].
  unfold expired in X. apply orb_false_iff in X.
  destruct (run_shape Math_cos Math_sin evs st) as [HH _].
  rewrite <- HH. exact (proj2 X).
Qed.

Lemma pool_particles_alive_witness :
  In (move first_spark)
     (particles (run flat_trig flat_trig (fresh "particles" "fire") [tick loud_frame])) /\
  (0 <? p_life (move first_spark)) = true /\
  (p_life (move first_spark) <? 1) = true.
Proof.
  assert (H : In (move first_spark)
                (particles (run flat_trig flat_trig (fresh "particles" "fire")
                              [tick loud_frame])))
    by (vm_compute; left; reflexivity).
  split; [exact H|].
  destruct (pool_particles_alive flat_trig flat_trig (fresh "particles" "fire")
              [tick loud_frame] (move first_spark) eq_refl H) as [_ [L0 [L1 _]]].
  split; assumption.
Defined.

Lemma quiet_run_aged (Math_cos Math_sin : float -> float)
    (frames : list tick_input) (st : visualizer) (a : nat) :
  visualMode st = "particles"%string ->
  Forall (aged a) (particles st) ->
  (forall inp, In inp frames ->
     quiet (frequencyData inp) /\
     List.length (frequencyData inp) = List.length (dataArray st)) ->
  Forall (aged (a + List.length frames))
         (particles (run Math_cos Math_sin st (map tick frames))).
Proof.
  revert st a. induction frames as [|inp frames IH]; intros st a M A Q.
  - cbn [List.length map]. rewrite Nat.add_0_r. exact A.
  - cbn [map List.length]. rewrite run_cons. cbn [handle].
    replace (a + S (List.length frames))%nat
      with (S a + List.length frames)%nat by lia.
    destruct (animate_keeps_surface Math_cos Math_sin st inp) as [_ KM].
    destruct (handle_shape Math_cos Math_sin st (tick inp)) as [_ [_ KL]].
    cbn [handle] in KL.
    apply IH.
    + rewrite KM. exact M.
    + rewrite animate_particles_pool by exact M.
      destruct (Q inp (or_introl eq_refl)) as [Qi Li].
      rewrite entering_quiet by assumption.
      eapply Forall_impl; [|apply survivors_aged; exact A].
      cbn. intros p [Hp _]. exact Hp.
    + intros i Hi. rewrite KL. apply Q. right. exact Hi.
Qed.

(** X15.  Silence drains the pool: after 99 particle-field ticks on frames
    whose samples are all at most 53, a pool of particles created with life
    1.0 is empty. *)
Theorem quiet_frames_drain_pool (Math_cos Math_sin : float -> float)
    (st : visualizer) (frames : list tick_input) :
  visualMode st = "particles"%string ->
  Forall (aged 1) (particles st) ->
  (forall inp, In inp frames ->
     quiet (frequencyData inp) /\
     List.length (frequencyData inp) = List.length (dataArray st)) ->
  (99 <= List.length frames)%nat ->
  particles (run Math_cos Math_sin st (map tick frames)) = [].
Proof.
  intros M A Q L.
  pose proof (quiet_run_aged Math_cos Math_sin frames st 1 M A Q) as H.
  destruct (particles (run Math_cos Math_sin st (map tick frames))) as [|p ps];
    [reflexivity|].
  apply Forall_inv in H. destruct H as [k [Hk _]]. lia.
Qed.

Lemma quiet_frames_drain_pool_witness :
  particles crowded <> [] /\
  particles (run flat_trig flat_trig crowded (map tick (repeat quiet_frame 99))) = [].
Proof.
  split; [vm_compute; discriminate|].
  apply quiet_frames_drain_pool.
  - vm_compute. reflexivity.
  - assert (I : pool_ok crowded).
    { unfold crowded. apply run_pool_ok. unfold pool_ok. constructor. }
    eapply Forall_impl; [|exact I]. intros p Hp. exact (proj1 Hp).
  - intros inp Hin. apply repeat_spec in Hin. subst inp.
    split; [exact quiet_frame_is_quiet|]. vm_compute. reflexivity.
  - rewrite repeat_length. lia.
Defined.

(** ** Color Mapper and bars *)

(** The loop counters of the strategies are array keys again once converted
    to a number. *)
Lemma counter_key (i : nat) :
  (i < 128)%nat -> float_to_Z (of_Z (Z.of_nat i)) = Some (Z.of_nat i).
Proof.
  intros Hi.
  assert (C : forallb (fun i => match float_to_Z (of_Z (Z.of_nat i)) with
                                | Some z => (z =? Z.of_nat i)%Z
                                | None => false
                                end) (seq 0 128) = true) by (vm_compute; reflexivity).
  apply (forallb_seq _ 0 128 i) in C; [|lia]. cbv beta in C.
  destruct (float_to_Z _) as [z|]; [|discriminate C].
  apply Z.eqb_eq in C. rewrite C. reflexivity.
Qed.

Lemma sample_of_bar (st : visualizer) (i : nat) :
  (i < 128)%nat ->
  sample_or_zero (snd (getVisualData st)) (of_Z (Z.of_nat i)) = visual_sample st i.
Proof.
  intros Hi. unfold sample_or_zero, float_get, key_of, visual_sample.
  rewrite counter_key by exact Hi.
  destruct (Z.ltb_spec (Z.of_nat i) 0) as [N|N]; [lia|].
  unfold typed_get. destruct (Z.ltb_spec (Z.of_nat i) 0) as [N'|N']; [lia|].
  rewrite Nat2Z.id.
  destruct (nth_error (snd (getVisualData st)) i) as [v|] eqn:E.
  - rewrite (nth_error_nth _ _ 0%Z E).
    destruct (Z.eqb_spec v 0) as [Z0|Z0]; [symmetry; exact Z0|reflexivity].
  - apply nth_error_None in E. rewrite visualData_length in E. lia.
Qed.

(** X16.  Right after the reducer has run, which is where the bars, circular
    and particle strategies ask for colors, the color for bar [i] is the
    explicit mapper's color for the visual sample of that very bar. *)
Theorem bar_color_uses_own_sample (st : visualizer) (i : nat) (total : float) :
  (i < 128)%nat ->
  getColor (fst (getVisualData st)) (of_Z (Z.of_nat i)) total
  = colorFor (of_Z (Z.of_nat i)) total (visual_sample st i) (colorScheme st).
Proof.
  intros Hi. rewrite getColor_colorFor.
  change (dataSource (fst (getVisualData st))) with (snd (getVisualData st)).
  rewrite sample_of_bar by exact Hi. reflexivity.
Qed.

Lemma bar_color_uses_own_sample_witness :
  getColor (fst (getVisualData all_loud)) (of_Z (Z.of_nat 7)) 128
  = colorFor (of_Z (Z.of_nat 7)) 128 (visual_sample all_loud 7) "neon".
Proof. apply (bar_color_uses_own_sample all_loud 7 128). lia. Defined.

(** X17.  In the neon scheme bar [i] gets the palette entry [i mod 3],
    scaled by the intensity of its own sample; for the 128 bars the result
    is never [undefined]. *)
Theorem neon_cycles_with_period_3 (st : visualizer) (i : nat) (total : float) :
  (i < 128)%nat -> colorScheme st = "neon"%string ->
  getColor (fst (getVisualData st)) (of_Z (Z.of_nat i)) total
  = nth (i mod 3) (neon_palette (of_Z (visual_sample st i) / 255)) undefined_color /\
  getColor (fst (getVisualData st)) (of_Z (Z.of_nat i)) total <> undefined_color.
Proof.
  intros Hi HS.
  assert (E : getColor (fst (getVisualData st)) (of_Z (Z.of_nat i)) total
              = nth (i mod 3) (neon_palette (of_Z (visual_sample st i) / 255))
                    undefined_color).
  { rewrite getColor_colorFor.
    change (dataSource (fst (getVisualData st))) with (snd (getVisualData st)).
    change (colorScheme (fst (getVisualData st))) with (colorScheme st).
    rewrite sample_of_bar by exact Hi. rewrite HS.
    unfold colorFor. cbn [String.eqb Ascii.eqb Bool.eqb].
    unfold neon_pick. rewrite counter_key by exact Hi.
    rewrite Z.rem_mod_nonneg by lia.
    destruct (Z.ltb_spec (Z.of_nat i mod 3) 0) as [N|N].
    - pose proof (Z.mod_pos_bound (Z.of_nat i) 3 ltac:(lia)). lia.
    - change 3%Z with (Z.of_nat 3). rewrite <- Nat2Z.inj_mod, Nat2Z.id.
      reflexivity. }
  split; [exact E|]. intros C. rewrite E in C.
  pose proof (Nat.mod_upper_bound i 3 ltac:(lia)) as B.
  destruct (i mod 3)%nat as [|[|[|n]]]; try discriminate C. lia.
Qed.

Lemma neon_cycles_with_period_3_witness :
  getColor (fst (getVisualData all_loud)) (of_Z (Z.of_nat 7)) 128
  = nth (7 mod 3) (neon_palette (of_Z (visual_sample all_loud 7) / 255)) undefined_color.
Proof.
  refine (proj1 (neon_cycles_with_period_3 all_loud 7 128 _ eq_refl)). lia.
Defined.

(** X18.  A scheme that is none of the five names falls through to the
    default branch: the color is the plain hue sweep [hsl(hue, 100%, 50%)]
    and does not depend on the sample data. *)
Theorem unknown_scheme_is_hue_sweep (st : visualizer) (index total : float) :
  ~ In (colorScheme st) known_schemes ->
  getColor st index total = hsl ((index / total) * 360) 100 50.
Proof.
  intros H. unfold known_schemes in H. cbn [In] in H. unfold getColor.
  destruct (String.eqb_spec (colorScheme st) "rainbow") as [E|_];
    [exfalso; apply H; rewrite E; auto 10|].
  destruct (String.eqb_spec (colorScheme st) "fire") as [E|_];
    [exfalso; apply H; rewrite E; auto 10|].
  destruct (String.eqb_spec (colorScheme st) "ocean") as [E|_];
    [exfalso; apply H; rewrite E; auto 10|].
  destruct (String.eqb_spec (colorScheme st) "neon") as [E|_];
    [exfalso; apply H; rewrite E; auto 10|].
  destruct (String.eqb_spec (colorScheme st) "purple") as [E|_];
    [exfalso; apply H; rewrite E; auto 10|].
  reflexivity.
Qed.

Lemma unknown_scheme_is_hue_sweep_witness :
  getColor (fresh "bars" "sunset") 32 128 = hsl 90 100 50.
Proof.
  rewrite (unknown_scheme_is_hue_sweep (fresh "bars" "sunset") 32 128).
  - vm_compute. reflexivity.
  - intros [E|[E|[E|[E|[E|[]]]]]]; discriminate E.
Defined.

(** The running left edge of [drawBars] is the bar width added [i] times to
    0; the calls of the loop are those of the bars, one after the other. *)
Lemma drawBars_fold (st1 : visualizer) (vd : list Z) (bw : float)
    (n a : nat) (x : float) (out : list ctx_call) :
  snd (fold_left
         (fun (acc : float * list ctx_call) (i : nat) =>
            (fst acc + bw, snd acc ++ bar_calls st1 vd bw (fst acc) i))
         (seq a n) (x, out))
  = out ++ flat_map
             (fun j => bar_calls st1 vd bw
                         (iterate (fun x => x + bw) (j - a) x) j)
             (seq a n).
Proof.
  revert a x out. induction n as [|n IH]; intros a x out; cbn [seq fold_left flat_map].
  - symmetry. apply app_nil_r.
  - cbn [fst snd]. rewrite IH, <- app_assoc, Nat.sub_diag. f_equal. f_equal.
    rewrite !flat_map_concat_map. f_equal. apply map_ext_in.
    intros j Hj. apply in_seq in Hj.
    replace (j - a)%nat with (S (j - S a)) by lia.
    rewrite iterate_S_r. reflexivity.
Qed.

Lemma visualData_of_length (st : visualizer) :
  List.length (visualData_of st) = 128%nat.
Proof. exact (visualData_length st). Qed.

Lemma array_length_128 (vd : list Z) :
  List.length vd = 128%nat -> array_length vd = 128.
Proof. intros H. unfold array_length. rewrite H. reflexivity. Qed.

Lemma snd_pair {A B : Type} (a : A) (b : B) : snd (a, b) = b.
Proof. reflexivity. Qed.

Lemma drawBars_unfold (st : visualizer) :
  drawBars st
  = (fst (getVisualData st),
     snd (fold_left
            (fun (acc : float * list ctx_call) (i : nat) =>
               (fst acc + (canvas_width st / array_length (visualData_of st) - 2),
                snd acc ++ bar_calls (fst (getVisualData st)) (visualData_of st)
                             (canvas_width st / array_length (visualData_of st) - 2)
                             (fst acc) i))
            (seq 0 (List.length (visualData_of st))) (0, []))).
Proof. reflexivity. Qed.

Lemma drawBars_calls (st : visualizer) :
  snd (drawBars st)
  = flat_map
      (fun j => bar_calls (fst (getVisualData st)) (snd (getVisualData st))
                  (canvas_width st / 128 - 2)
                  (iterate (fun x => x + (canvas_width st / 128 - 2)) j 0) j)
      (seq 0 128).
Proof.
  rewrite drawBars_unfold, snd_pair.
  rewrite (array_length_128 _ (visualData_of_length st)).
  rewrite visualData_of_length.
  rewrite drawBars_fold. rewrite app_nil_l.
  apply flat_map_ext. intros j. rewrite Nat.sub_0_r. reflexivity.
Qed.

Lemma bar_height (st : visualizer) (i : nat) :
  (i < 128)%nat ->
  to_number (nth_error (snd (getVisualData st)) i) = of_Z (visual_sample st i).
Proof.
  intros Hi. unfold visual_sample.
  destruct (nth_error (snd (getVisualData st)) i) as [v|] eqn:E.
  - rewrite (nth_error_nth _ _ 0%Z E). reflexivity.
  - apply nth_error_None in E. rewrite visualData_length in E. lia.
Qed.

(** X19.  [drawBars] paints all 128 bars on every call, left to right: bar
    [i] starts at the bar width [width/128 - 2] added [i] times to 0, is
    [width/128 - 4] wide and [sample/255 * height] tall, resting on the
    bottom edge.  Nothing is skipped, not even a bar of height 0. *)
Theorem drawBars_rectangles (st : visualizer) :
  rects (snd (drawBars st))
  = map (fun i =>
           let barWidth := canvas_width st / 128 - 2 in
           let barHeight := (of_Z (visual_sample st i) / 255) * canvas_height st in
           fillRect (iterate (fun x => x + barWidth) i 0)
                    (canvas_height st - barHeight) (barWidth - 2) barHeight)
        (seq 0 128).
Proof.
  rewrite drawBars_calls.
  assert (G : forall l : list nat,
             (forall i, In i l -> (i < 128)%nat) ->
             rects (flat_map
                      (fun j => bar_calls (fst (getVisualData st)) (snd (getVisualData st))
                                  (canvas_width st / 128 - 2)
                                  (iterate (fun x => x + (canvas_width st / 128 - 2)) j 0) j)
                      l)
             = map (fun i =>
                      let barWidth := canvas_width st / 128 - 2 in
                      let barHeight :=
                        (of_Z (visual_sample st i) / 255) * canvas_height st in
                      fillRect (iterate (fun x => x + barWidth) i 0)
                               (canvas_height st - barHeight) (barWidth - 2) barHeight)
                   l).
  { induction l as [|j l IH]; intros B; [reflexivity|].
    cbn [flat_map map]. unfold bar_calls at 1. cbn [app rects filter].
    fold (rects (flat_map
                   (fun j => bar_calls (fst (getVisualData st)) (snd (getVisualData st))
                               (canvas_width st / 128 - 2)
                               (iterate (fun x => x + (canvas_width st / 128 - 2)) j 0) j)
                   l)).
    rewrite IH by (intros i Hi; apply B; right; exact Hi).
    rewrite bar_height by (apply B; left; reflexivity). reflexivity. }
  apply G. intros i Hi. apply in_seq in Hi. lia.
Qed.

Lemma shadow_at_bars (st1 : visualizer) (vd : list Z) (bw : float)
    (xf : nat -> float) (n a : nat) (cur : option color) :
  shadow_at_rects cur
    (flat_map (fun j => bar_calls st1 vd bw (xf j) j) (seq a (S n)))
  = cur :: map (fun i => Some (getColor st1 (of_Z (Z.of_nat i)) (array_length vd)))
               (seq a n).
Proof.
  revert a cur. induction n as [|n IH]; intros a cur.
  - reflexivity.
  - change (seq a (S (S n))) with (a :: seq (S a) (S n)).
    cbn [flat_map]. unfold bar_calls at 1. cbn [app shadow_at_rects].
    rewrite IH. reflexivity.
Qed.

(** X20.  In [drawBars] the glow is assigned after the rectangle is filled:
    when bar [i + 1] is painted, the [shadowColor] assigned last is the color
    of bar [i], and no assignment of the call precedes bar 0, which is
    painted with whatever was in force before. *)
Theorem bar_glow_lags_one_bar (st : visualizer) (cur : option color) :
  shadow_at_rects cur (snd (drawBars st))
  = cur :: map (fun i => Some (getColor (fst (getVisualData st))
                                        (of_Z (Z.of_nat i)) 128))
               (seq 0 127).
Proof.
  rewrite drawBars_calls.
  rewrite (shadow_at_bars (fst (getVisualData st)) (snd (getVisualData st))
             (canvas_width st / 128 - 2)
             (fun j => iterate (fun x => x + (canvas_width st / 128 - 2)) j 0)
             127 0 cur).
  unfold array_length. rewrite visualData_length. reflexivity.
Qed.

(** ** Global alpha *)

Lemma last_alpha_app (a b : list ctx_call) (acc : option float) :
  last_alpha acc (a ++ b) = last_alpha (last_alpha acc a) b.
Proof.
  revert acc. induction a as [|c a IH]; intros acc; [reflexivity|].
  destruct c; cbn [app last_alpha]; apply IH.
Qed.

Lemma last_alpha_flat_kept {A : Type} (f : A -> list ctx_call) (l : list A)
    (acc : option float) :
  (forall i acc', last_alpha acc' (f i) = acc') ->
  last_alpha acc (flat_map f l) = acc.
Proof.
  intros H. induction l as [|i l IH]; [reflexivity|].
  cbn [flat_map]. rewrite last_alpha_app, H. exact IH.
Qed.

Lemma last_alpha_flat_set {A : Type} (f : A -> list ctx_call) (l : list A)
    (acc : option float) (v : float) :
  (forall i acc', last_alpha acc' (f i) = Some v) -> l <> [] ->
  last_alpha acc (flat_map f l) = Some v.
Proof.
  intros H. revert acc. induction l as [|i l IH]; intros acc N; [contradiction|].
  cbn [flat_map]. rewrite last_alpha_app, H.
  destruct l as [|j l]; [reflexivity|]. apply IH. discriminate.
Qed.

Lemma last_alpha_paints (h : float) (k : nat) (ps : list particle)
    (acc : option float) :
  last_alpha acc (snd (update_loop h k ps)) = acc \/
  last_alpha acc (snd (update_loop h k ps)) = Some 1.
Proof.
  revert ps acc. induction k as [|k IH]; intros ps acc; [left; reflexivity|].
  cbn [update_loop]. destruct (nth_error ps k) as [p|]; [|left; reflexivity].
  destruct (expired h (move p)); [apply IH|].
  cbn [snd]. rewrite last_alpha_app. unfold paint_particle. cbn [last_alpha].
  destruct (IH (store k (move p) ps) (Some 1)) as [E|E]; right; exact E.
Qed.

Lemma drawParticles_calls (rnd : nat -> float) (st : visualizer) :
  exists (paints : list ctx_call),
    (forall acc, last_alpha acc paints = acc \/ last_alpha acc paints = Some 1) /\
    snd (drawParticles rnd st)
    = paints ++ flat_map (background_bar (fst (getVisualData st)) (snd (getVisualData st)))
                         (seq 0 128).
Proof.
  eexists. split; [|unfold drawParticles, getVisualData; cbn [snd fst];
                    rewrite visualData_of_length; reflexivity].
  intros acc. apply last_alpha_paints.
Qed.

Lemma last_alpha_drawParticles (rnd : nat -> float) (st : visualizer)
    (acc : option float) :
  last_alpha acc (snd (drawParticles rnd st)) = Some 1.
Proof.
  destruct (drawParticles_calls rnd st) as [paints [_ E]]. rewrite E.
  rewrite last_alpha_app. apply last_alpha_flat_set; [|discriminate].
  intros i acc'. reflexivity.
Qed.

Lemma last_alpha_drawBars (st : visualizer) (acc : option float) :
  last_alpha acc (snd (drawBars st)) = acc.
Proof.
  rewrite drawBars_calls. apply last_alpha_flat_kept.
  intros i acc'. reflexivity.
Qed.

Lemma last_alpha_drawWaveform (st : visualizer) (acc : option float) :
  last_alpha acc (snd (drawWaveform st)) = Some 1.
Proof.
  unfold drawWaveform. rewrite snd_pair.
  rewrite !last_alpha_app. reflexivity.
Qed.

Section Alpha.

Variables Math_cos Math_sin : float -> float.

Lemma last_alpha_drawCircular (st : visualizer) (acc : option float) :
  last_alpha acc (snd (drawCircular Math_cos Math_sin st)) = acc.
Proof.
  unfold drawCircular, getVisualData. rewrite snd_pair.
  rewrite !last_alpha_app. cbn [last_alpha].
  apply last_alpha_flat_kept. intros i acc'. reflexivity.
Qed.

Lemma animate_calls_split (st : visualizer) (inp : tick_input) :
  exists st1 clear,
    last_alpha_neutral_calls clear /\
    ((visualMode st = "bars"%string /\
      snd (animate Math_cos Math_sin st inp) = clear ++ snd (drawBars st1)) \/
     (visualMode st = "circular"%string /\
      snd (animate Math_cos Math_sin st inp)
      = clear ++ snd (drawCircular Math_cos Math_sin st1)) \/
     (visualMode st = "waveform"%string /\
      snd (animate Math_cos Math_sin st inp) = clear ++ snd (drawWaveform st1)) \/
     (visualMode st = "particles"%string /\
      snd (animate Math_cos Math_sin st inp)
      = clear ++ snd (drawParticles (random inp) st1)) \/
     (~ In (visualMode st) known_modes /\
      snd (animate Math_cos Math_sin st inp) = clear)).
Proof.
  unfold animate.
  destruct (String.eqb_spec (visualMode st) "waveform") as [W|W].
  - rewrite W. cbn [String.eqb Ascii.eqb Bool.eqb]. rewrite snd_pair.
    eexists _, _. split; [|right; right; left; split; reflexivity].
    intros acc. reflexivity.
  - destruct (String.eqb_spec (visualMode st) "bars") as [B|B].
    { rewrite snd_pair. eexists _, _.
      split; [|left; split; [exact B|reflexivity]]. intros acc. reflexivity. }
    destruct (String.eqb_spec (visualMode st) "circular") as [C|C].
    { rewrite snd_pair. eexists _, _.
      split; [|right; left; split; [exact C|reflexivity]]. intros acc. reflexivity. }
    destruct (String.eqb_spec (visualMode st) "particles") as [P|P].
    { rewrite snd_pair. eexists _, _.
      split; [|right; right; right; left; split; [exact P|reflexivity]].
      intros acc. reflexivity. }
    rewrite snd_pair. exists st. eexists.
    split; [|right; right; right; right; split; [|cbn [snd]; apply app_nil_r]].
    + intros acc. reflexivity.
    + unfold known_modes. cbn [In]. intros [E|[E|[E|[E|[]]]]]; congruence.
Qed.

End Alpha.

(** X21.  A tick in mode waveform or particles ends with [globalAlpha] set
    back to 1; a tick in any other mode never assigns it.  So an opacity of
    1 at the start of a tick is an opacity of 1 at its end. *)
Theorem ticks_restore_alpha (Math_cos Math_sin : float -> float)
    (st : visualizer) (inp : tick_input) (acc : option float) :
  last_alpha acc (snd (animate Math_cos Math_sin st inp))
  = if String.eqb (visualMode st) "waveform"
       || String.eqb (visualMode st) "particles"
    then Some 1 else acc.
Proof.
  destruct (animate_calls_split Math_cos Math_sin st inp)
    as [st1 [clear [N [[M E]|[[M E]|[[M E]|[[M E]|[M E]]]]]]]];
    rewrite E; try rewrite last_alpha_app; rewrite N; try rewrite M.
  - rewrite last_alpha_drawBars. reflexivity.
  - rewrite last_alpha_drawCircular. reflexivity.
  - rewrite last_alpha_drawWaveform. reflexivity.
  - rewrite last_alpha_drawParticles. reflexivity.
  - unfold known_modes in M. cbn [In] in M.
    destruct (String.eqb_spec (visualMode st) "waveform") as [W|W];
      [exfalso; apply M; rewrite W; auto 10|].
    destruct (String.eqb_spec (visualMode st) "particles") as [P|P];
      [exfalso; apply M; rewrite P; auto 10|].
    reflexivity.
Qed.

(** ** Waveform gradient *)

Lemma long_frame_keys (M : Z) :
  In M long_frames ->
  key_of (of_Z M / 2) = Some (M / 2)%Z /\ key_of (of_Z M - 1) = Some (M - 1)%Z /\
  (128 <= M / 2)%Z /\ (128 <= M - 1)%Z.
Proof.
  intros H. unfold long_frames in H. cbn [In] in H.
  repeat (destruct H as [H|H];
          [subst M; split; [vm_compute; reflexivity|];
           split; [vm_compute; reflexivity|];
           split; vm_compute; discriminate|]).
  contradiction.
Qed.

(** X22.  [drawWaveform] asks for the colors of the indices [length / 2] and
    [length - 1] of the raw frame, but the Color Mapper looks them up in the
    cached visual array of 128 elements.  With any cached array and an
    analyser frame of 256 samples or more, both lookups are out of range:
    the middle and last stop of the gradient, and the glow, are the colors
    for sample value 0, whatever the audio is. *)
Theorem waveform_gradient_ignores_audio (st : visualizer) (cache : list Z) :
  currentVisualData st = Some cache ->
  List.length cache = 128%nat ->
  In (Z.of_nat (List.length (dataArray st))) long_frames ->
  let bufferLength := array_length (dataArray st) in
  getColor st (bufferLength / 2) bufferLength
  = colorFor (bufferLength / 2) bufferLength 0 (colorScheme st) /\
  getColor st (bufferLength - 1) bufferLength
  = colorFor (bufferLength - 1) bufferLength 0 (colorScheme st).
Proof.
  intros HC HL HM. cbv zeta. unfold array_length.
  destruct (long_frame_keys _ HM) as [K2 [K1 [B2 B1]]].
  rewrite !getColor_colorFor. unfold dataSource. rewrite HC.
  rewrite (sample_or_zero_beyond cache _ _ K2) by (rewrite HL; exact B2).
  rewrite (sample_or_zero_beyond cache _ _ K1) by (rewrite HL; exact B1).
  split; reflexivity.
Qed.

Lemma waveform_gradient_ignores_audio_witness :
  getColor after_loud_bars (array_length (dataArray after_loud_bars) / 2)
           (array_length (dataArray after_loud_bars))
  = colorFor (array_length (dataArray after_loud_bars) / 2)
             (array_length (dataArray after_loud_bars)) 0 "fire".
Proof.
  assert (C : currentVisualData after_loud_bars = Some (repeat 255%Z 128))
    by (vm_compute; reflexivity).
  refine (proj1 (waveform_gradient_ignores_audio after_loud_bars _ C eq_refl _)).
  right. right. left. vm_compute. reflexivity.
Defined.
